(** * Digital signature pad: the capture engine of [src/App.js]

    The React component [SignaturePad] is embedded as a state machine.
    Its hooks ([isDrawing], [currentUser], [signatureStatus], [padActive],
    [fileFormat]) are a record; the two refs and the canvas they point to
    are part of the store; every event handler is a computation in a small
    state-and-exception monad that reads the hooks of the render it was
    created in and queues the hook updates for the next render.

    JavaScript numbers are idealised as rationals ([Q]).  The browser's
    2D canvas is modelled as a display list with a point-sampled reading
    ([inkAt]): black opaque ink or nothing, no anti-aliasing.  A stroke
    covers what the canvas specification traces: the swept line of each
    segment, the caps of [lineCap], and the joins of the default
    [lineJoin], [miter]. *)

From Stdlib Require Import QArith ZArith List String Bool Lia Lqa Qround.
Import ListNotations.

Local Open Scope Q_scope.

(* ================================================================== *)
(** ** The browser's canvas: geometry *)

Module Canvas2D.

Record Point := mkPoint { x : Q; y : Q }.

(** A subpath of the context's current default path, in device space. *)
Record Subpath := mkSubpath { points : list Point; closed : bool }.

(** The current transformation matrix.  The program only ever calls
    [ctx.scale], so a pair of scale factors is the whole matrix. *)
Record Transform := mkTransform { sx : Q; sy : Q }.

Definition identity : Transform := mkTransform 1 1.

Definition apply (t : Transform) (p : Point) : Point :=
  mkPoint (x p * sx t) (y p * sy t).

Definition unapply (t : Transform) (p : Point) : Point :=
  mkPoint (x p / sx t) (y p / sy t).

Definition invertible (t : Transform) : bool :=
  negb (Qeq_bool (sx t) 0) && negb (Qeq_bool (sy t) 0).

Inductive LineCap := butt | round | square.

Definition sq (a : Q) : Q := a * a.

Definition dist2 (p q : Point) : Q := sq (x p - x q) + sq (y p - y q).

(** Vectors are points; [cross u v] is positive where [v] turns
    counter-clockwise from [u]. *)
Definition minus (p q : Point) : Point := mkPoint (x p - x q) (y p - y q).

Definition dot (u v : Point) : Q := x u * x v + y u * y v.

Definition cross (u v : Point) : Q := x u * y v - y u * x v.

Definition samePoint (a b : Point) : bool :=
  Qeq_bool (x a) (x b) && Qeq_bool (y a) (y b).

(** Tracing a path starts by pruning its zero-length segments: a point
    that repeats the one before it is dropped. *)
Fixpoint prune (prev : Point) (pts : list Point) : list Point :=
  match pts with
  | [] => []
  | q :: rest => if samePoint prev q then prune prev rest else q :: prune q rest
  end.

Definition pruned (pts : list Point) : list Point :=
  match pts with
  | [] => []
  | a :: rest => a :: prune a rest
  end.

(** The line of half-width [hw] swept along the segment [a]-[b], kept
    orthogonal to it: the rectangle around the segment. *)
Definition bodyCovers (hw : Q) (a b p : Point) : bool :=
  let u := minus b a in
  let w := minus p a in
  Qle_bool 0 (dot w u) && Qle_bool (dot w u) (dot u u)
  && Qle_bool (sq (cross u w)) (sq hw * dot u u).

(** The cap put on the end [tip] of a line that leaves it in direction
    [dir]: nothing, a half disc, or half a square. *)
Definition capCovers (cap : LineCap) (hw : Q) (tip dir p : Point) : bool :=
  let w := minus p tip in
  match cap with
  | butt => false
  | round => Qle_bool (dist2 p tip) (sq hw) && Qle_bool 0 (dot w dir)
  | square =>
      Qle_bool 0 (dot w dir) && Qle_bool (sq (dot w dir)) (sq hw * dot dir dir)
      && Qle_bool (sq (cross dir w)) (sq hw * dot dir dir)
  end.

(** The context's [miterLimit]; the program leaves it, like [lineJoin],
    at its default. *)
Definition miterLimit : Q := 10.

(** The join of the line [a]-[v] to the line [v]-[c], for [lineJoin]
    [miter].  With [n1] and [n2] the normals of the two lines on the outer
    side of the turn, the point is [v + A n1 + B n2].  The triangle
    between [v] and the two outer corners is always filled; the triangle
    between the corners and the meeting point of the outer edges is added
    while the miter length stays within the limit, that is while
    [1 / sin (theta / 2) <= miterLimit] for the angle [theta] between the
    lines; with [phi] the angle between the directions [u] and [w] this
    reads [cos phi >= - (miterLimit ^ 2 - 2) / miterLimit ^ 2].  Lines
    that continue straight on or turn right back have no outer side and
    no join. *)
Definition joinCovers (hw : Q) (a v c p : Point) : bool :=
  let u := minus v a in
  let w := minus c v in
  let k := cross u w in
  if Qeq_bool k 0 then false
  else
    let s := if Qle_bool 0 k then - (1) else 1 in
    let n1 := mkPoint (s * - y u) (s * x u) in
    let n2 := mkPoint (s * - y w) (s * x w) in
    let q := minus p v in
    let A := cross q n2 / cross n1 n2 in
    let B := cross n1 q / cross n1 n2 in
    let bevel :=
      let R := sq hw - sq A * dot u u - sq B * dot w w in
      Qle_bool 0 R && Qle_bool (4 * sq A * sq B * dot u u * dot w w) (sq R) in
    let within (n : Point) :=
      Qle_bool (dot q n) 0 || Qle_bool (sq (dot q n)) (sq hw * dot n n) in
    let miterAllowed :=
      Qle_bool 0 (dot u w)
      || Qle_bool (sq (dot u w) * sq (sq miterLimit))
                  (sq (sq miterLimit - 2) * dot u u * dot w w) in
    Qle_bool 0 A && Qle_bool 0 B
    && (bevel || (miterAllowed && within n1 && within n2)).

Fixpoint bodies (hw : Q) (pts : list Point) (p : Point) : bool :=
  match pts with
  | a :: ((b :: _) as rest) => bodyCovers hw a b p || bodies hw rest p
  | _ => false
  end.

Fixpoint joins (hw : Q) (pts : list Point) (p : Point) : bool :=
  match pts with
  | a :: ((v :: c :: _) as rest) => joinCovers hw a v c p || joins hw rest p
  | _ => false
  end.

(** What stroking one subpath covers.  A subpath left with fewer than two
    points after pruning has no line and strokes nothing.  An open
    subpath gets a cap on each end; a closed one gets the line back to
    its first point and a join there instead. *)
Definition subpathCovers (cap : LineCap) (hw : Q) (sp : Subpath) (p : Point) : bool :=
  if closed sp then
    match points sp with
    | [] => false
    | first :: _ =>
        let pts := pruned (points sp ++ [first]) in
        match pts, rev pts with
        | _ :: second :: _, _ :: before :: _ =>
            bodies hw pts p || joins hw pts p || joinCovers hw before first second p
        | _, _ => false
        end
    end
  else
    let pts := pruned (points sp) in
    match pts, rev pts with
    | a :: b :: _, z :: before :: _ =>
        bodies hw pts p || joins hw pts p
        || capCovers cap hw a (minus a b) p
        || capCovers cap hw z (minus z before) p
    | _, _ => false
    end.

Definition pathCovers (cap : LineCap) (hw : Q) (path : list Subpath) (p : Point) : bool :=
  existsb (fun sp => subpathCovers cap hw sp p) path.

(** An axis-aligned rectangle of device space, by two opposite corners. *)
Record Box := mkBox { x0 : Q; y0 : Q; x1 : Q; y1 : Q }.

Definition between (a b v : Q) : bool :=
  (Qle_bool a v && Qle_bool v b) || (Qle_bool b v && Qle_bool v a).

Definition inBox (b : Box) (p : Point) : bool :=
  between (x0 b) (x1 b) (x p) && between (y0 b) (y1 b) (y p).

(* ------------------------------------------------------------------ *)
(** ** The bitmap as a display list *)

(** What has been painted since the bitmap was last reset, most recent
    first.  A decoded image holds the display list it was captured from. *)
#[warnings="-register-all"]
Inductive Layer :=
| Stroked (t : Transform) (path : list Subpath) (lineWidth : Q)
          (cap : LineCap) (style : string)
| Cleared (b : Box)
| Picture (naturalWidth naturalHeight : Z) (pixels : list Layer)
          (t : Transform) (dx dy : Q).

Definition Bitmap := list Layer.

(** The pixels of a [w] by [h] bitmap: [0 <= x < w] and [0 <= y < h]. *)
Definition inBounds (w h : Z) (p : Point) : bool :=
  Qle_bool 0 (x p) && negb (Qle_bool (inject_Z w) (x p))
  && Qle_bool 0 (y p) && negb (Qle_bool (inject_Z h) (y p)).

(** Is the device point [p] inked?  Strokes are traced in user space with
    the transform of the moment of the call; [clearRect] erases its box;
    [drawImage] composites source-over, so where the image is transparent
    what lies below shows through.  [inkLayer l below] reads one layer
    over the reading [below] of what it was painted on. *)
Fixpoint inkLayer (l : Layer) (below : Point -> bool) (p : Point) : bool :=
  match l with
  | Stroked t path lw cap _ =>
      (invertible t
       && pathCovers cap (lw / 2)
            (map (fun sp => mkSubpath (map (unapply t) (points sp)) (closed sp)) path)
            (unapply t p))
      || below p
  | Cleared b => if inBox b p then false else below p
  | Picture iw ih pix t dx dy =>
      let image :=
        (fix layers (ls : list Layer) : Point -> bool :=
           match ls with
           | [] => fun _ => false
           | l' :: rest => inkLayer l' (layers rest)
           end) pix in
      (invertible t
       && (let q := mkPoint (x (unapply t p) - dx) (y (unapply t p) - dy) in
           inBounds iw ih q && image q))
      || below p
  end.

Fixpoint inkLayers (ls : Bitmap) : Point -> bool :=
  match ls with
  | [] => fun _ => false
  | l :: below => inkLayer l (inkLayers below)
  end.

(* ------------------------------------------------------------------ *)
(** ** The canvas element and its 2D context *)

Record DOMRect := mkRect { left : Q; top : Q }.

Record CanvasElement := mkCanvas {
  width : Z;               (* backing resolution *)
  height : Z;
  offsetWidth : Z;         (* displayed (logical) size, set by layout *)
  offsetHeight : Z;
  boundingClientRect : DOMRect;
  bitmap : Bitmap
}.

Record Context := mkContext {
  transform : Transform;
  path : list Subpath;     (* the current subpath first *)
  lineCap : LineCap;
  strokeStyle : string;
  lineWidth : Q
}.

(** The state a context is created in and reset to. *)
Definition defaultContext : Context :=
  mkContext identity [] butt "#000000" 1.

Definition inkAt (c : CanvasElement) (p : Point) : bool :=
  inBounds (width c) (height c) p && inkLayers (bitmap c) p.

Definition blank (c : CanvasElement) : Prop := forall p, inkAt c p = false.

(** Conversion of a number to the [unsigned long] of the [width] and
    [height] attributes: truncate, then wrap. *)
Definition toUnsignedLong (q : Q) : Z :=
  ((if Qle_bool 0 q then Qfloor q else Qceiling q) mod 2 ^ 32)%Z.

(** Assigning [canvas.width] or [canvas.height], even to the value it
    has, clears the bitmap and resets the context to its default state. *)
Definition setWidth (v : Q) (cc : CanvasElement * Context) : CanvasElement * Context :=
  let c := fst cc in
  (mkCanvas (toUnsignedLong v) (height c) (offsetWidth c) (offsetHeight c)
            (boundingClientRect c) [],
   defaultContext).

Definition setHeight (v : Q) (cc : CanvasElement * Context) : CanvasElement * Context :=
  let c := fst cc in
  (mkCanvas (width c) (toUnsignedLong v) (offsetWidth c) (offsetHeight c)
            (boundingClientRect c) [],
   defaultContext).

Definition setBitmap (b : Bitmap) (c : CanvasElement) : CanvasElement :=
  mkCanvas (width c) (height c) (offsetWidth c) (offsetHeight c)
           (boundingClientRect c) b.

Definition scale (a b : Q) (ctx : Context) : Context :=
  mkContext (mkTransform (sx (transform ctx) * a) (sy (transform ctx) * b))
            (path ctx) (lineCap ctx) (strokeStyle ctx) (lineWidth ctx).

Definition setLineCap (v : LineCap) (ctx : Context) : Context :=
  mkContext (transform ctx) (path ctx) v (strokeStyle ctx) (lineWidth ctx).

Definition setStrokeStyle (v : string) (ctx : Context) : Context :=
  mkContext (transform ctx) (path ctx) (lineCap ctx) v (lineWidth ctx).

Definition setLineWidth (v : Q) (ctx : Context) : Context :=
  mkContext (transform ctx) (path ctx) (lineCap ctx) (strokeStyle ctx) v.

Definition setPath (v : list Subpath) (ctx : Context) : Context :=
  mkContext (transform ctx) v (lineCap ctx) (strokeStyle ctx) (lineWidth ctx).

Definition beginPath (ctx : Context) : Context := setPath [] ctx.

(** Points enter the path through the current transform. *)
Definition moveTo (px py : Q) (ctx : Context) : Context :=
  setPath (mkSubpath [apply (transform ctx) (mkPoint px py)] false :: path ctx) ctx.

(** With no subpath yet, [lineTo] only starts one at its point. *)
Definition lineTo (px py : Q) (ctx : Context) : Context :=
  match path ctx with
  | [] => moveTo px py ctx
  | sp :: rest =>
      setPath (mkSubpath (points sp ++ [apply (transform ctx) (mkPoint px py)])
                         (closed sp) :: rest) ctx
  end.

(** Marks the current subpath closed and starts a new one at its first
    point; nothing without a subpath. *)
Definition closePath (ctx : Context) : Context :=
  match path ctx with
  | [] => ctx
  | sp :: rest =>
      match points sp with
      | [] => ctx
      | first :: _ =>
          setPath (mkSubpath [first] false :: mkSubpath (points sp) true :: rest) ctx
      end
  end.

Definition stroke (ctx : Context) (c : CanvasElement) : CanvasElement :=
  setBitmap (Stroked (transform ctx) (path ctx) (lineWidth ctx) (lineCap ctx)
                     (strokeStyle ctx) :: bitmap c) c.

(** The rectangle is given in user space and erased where the current
    transform maps it; a rectangle of no width or no height erases
    nothing. *)
Definition clearRect (rx ry rw rh : Q) (ctx : Context) (c : CanvasElement) : CanvasElement :=
  if Qeq_bool rw 0 || Qeq_bool rh 0 || negb (invertible (transform ctx)) then c
  else
    let a := apply (transform ctx) (mkPoint rx ry) in
    let b := apply (transform ctx) (mkPoint (rx + rw) (ry + rh)) in
    setBitmap (Cleared (mkBox (x a) (y a) (x b) (y b)) :: bitmap c) c.

(** A decoded image: its natural size in pixels and its content. *)
Record Image := mkImage {
  naturalWidth : Z;
  naturalHeight : Z;
  pixels : Bitmap
}.

(** The three-argument [drawImage]: the image at its natural size, its
    top left corner at user-space [(dx, dy)]. *)
Definition drawImage (img : Image) (dx dy : Q) (ctx : Context) (c : CanvasElement)
  : CanvasElement :=
  setBitmap (Picture (naturalWidth img) (naturalHeight img) (pixels img)
                     (transform ctx) dx dy :: bitmap c) c.

(** The result of [toDataURL]: [data:,] for a canvas without pixels,
    else the bitmap encoded in some format. *)
Inductive DataURL :=
| EmptyData
| Encoded (mime : string) (w h : Z) (content : Bitmap).

Definition supportedType (type : string) : bool :=
  String.eqb type "image/png" || String.eqb type "image/jpeg"
  || String.eqb type "image/webp".

(** A type the browser does not support is encoded as PNG. *)
Definition toDataURL (type : string) (c : CanvasElement) : DataURL :=
  if Z.eqb (width c) 0 || Z.eqb (height c) 0 then EmptyData
  else Encoded (if supportedType type then type else "image/png")
               (width c) (height c) (bitmap c).

(** Decoding an image source.  PNG is lossless and keeps transparency;
    the program decodes nothing else.  [None]: the [error] event fires
    instead of [load]. *)
Definition decode (d : DataURL) : option Image :=
  match d with
  | EmptyData => None
  | Encoded mime w h content =>
      if String.eqb mime "image/png" then Some (mkImage w h content) else None
  end.

End Canvas2D.

Import Canvas2D.
Local Open Scope string_scope.

(* ================================================================== *)
(** ** The component's state *)

Inductive User := admin | client.

Inductive SignatureStatus := not_signed | requested | signed.

Definition User_eqb (a b : User) : bool :=
  match a, b with
  | admin, admin | client, client => true
  | _, _ => false
  end.

Definition SignatureStatus_eqb (a b : SignatureStatus) : bool :=
  match a, b with
  | not_signed, not_signed | requested, requested | signed, signed => true
  | _, _ => false
  end.

(** The values of the [useState] hooks in one render. *)
Record Hooks := mkHooks {
  isDrawing : bool;
  currentUser : User;
  signatureStatus : SignatureStatus;
  padActive : bool;
  fileFormat : string
}.

(** What the component lives in: its hooks (inside a handler, the values
    queued for the next render), its two refs, the window's pixel ratio,
    whether the resize listener is registered, and the images whose
    [src] has been set and whose [load] has not fired yet, oldest
    first. *)
Record Engine := mkEngine {
  hooks : Hooks;
  canvasRef : option CanvasElement;
  contextRef : option Context;
  devicePixelRatio : Q;
  listening : bool;
  loading : list DataURL
}.

Definition setHooks (h : Hooks) (s : Engine) : Engine :=
  mkEngine h (canvasRef s) (contextRef s) (devicePixelRatio s) (listening s) (loading s).

Definition setCanvasRef (c : option CanvasElement) (s : Engine) : Engine :=
  mkEngine (hooks s) c (contextRef s) (devicePixelRatio s) (listening s) (loading s).

Definition setContextRef (c : option Context) (s : Engine) : Engine :=
  mkEngine (hooks s) (canvasRef s) c (devicePixelRatio s) (listening s) (loading s).

Definition setListening (b : bool) (s : Engine) : Engine :=
  mkEngine (hooks s) (canvasRef s) (contextRef s) (devicePixelRatio s) b (loading s).

Definition setLoading (l : list DataURL) (s : Engine) : Engine :=
  mkEngine (hooks s) (canvasRef s) (contextRef s) (devicePixelRatio s) (listening s) l.

(** What a handler does to the world outside the component. *)
Inductive Effect :=
| PreventDefault
| Download (href : DataURL) (download : string).

(* ------------------------------------------------------------------ *)
(** ** Handlers: state, output and exceptions *)

Inductive Result (A : Type) :=
| Ok (a : A) (s : Engine) (out : list Effect)
| TypeError (s : Engine) (out : list Effect).
Arguments Ok {A} a s out.
Arguments TypeError {A} s out.

Definition M (A : Type) := Engine -> Result A.

Definition ret {A} (a : A) : M A := fun s => Ok a s [].

Definition bind {A B} (m : M A) (k : A -> M B) : M B :=
  fun s =>
    match m s with
    | Ok a s1 out1 =>
        match k a s1 with
        | Ok b s2 out2 => Ok b s2 (out1 ++ out2)
        | TypeError s2 out2 => TypeError s2 (out1 ++ out2)
        end
    | TypeError s1 out1 => TypeError s1 out1
    end.

Declare Scope handler_scope.
Delimit Scope handler_scope with handler.
Notation "x <- m ;; k" := (bind m (fun x => k))
  (at level 61, m at next level, right associativity) : handler_scope.
Notation "m ;; k" := (bind m (fun _ => k))
  (at level 61, right associativity) : handler_scope.
Local Open Scope handler_scope.

Definition get : M Engine := fun s => Ok s s [].
Definition modify (f : Engine -> Engine) : M unit := fun s => Ok tt (f s) [].
Definition emit (e : Effect) : M unit := fun s => Ok tt s [e].
Definition throw {A} : M A := fun s => TypeError s [].

(** Reading a member of [ref.current]: a [TypeError] when it is null. *)
Definition deref {A} (ref : Engine -> option A) : M A :=
  fun s => match ref s with Some a => Ok a s [] | None => TypeError s [] end.

Definition withIsDrawing (v : bool) (h : Hooks) : Hooks :=
  mkHooks v (currentUser h) (signatureStatus h) (padActive h) (fileFormat h).

Definition withCurrentUser (v : User) (h : Hooks) : Hooks :=
  mkHooks (isDrawing h) v (signatureStatus h) (padActive h) (fileFormat h).

Definition withSignatureStatus (v : SignatureStatus) (h : Hooks) : Hooks :=
  mkHooks (isDrawing h) (currentUser h) v (padActive h) (fileFormat h).

Definition withPadActive (v : bool) (h : Hooks) : Hooks :=
  mkHooks (isDrawing h) (currentUser h) (signatureStatus h) v (fileFormat h).

(** The setters of the hooks: the value is queued for the next render;
    the handler keeps reading the render it belongs to. *)
Definition setIsDrawing (v : bool) : M unit :=
  modify (fun s => setHooks (withIsDrawing v (hooks s)) s).

Definition setCurrentUser (v : User) : M unit :=
  modify (fun s => setHooks (withCurrentUser v (hooks s)) s).

Definition setSignatureStatus (v : SignatureStatus) : M unit :=
  modify (fun s => setHooks (withSignatureStatus v (hooks s)) s).

Definition setPadActive (v : bool) : M unit :=
  modify (fun s => setHooks (withPadActive v (hooks s)) s).

(** A method of the context that changes the context only. *)
Definition onContext (f : Context -> Context) : M unit :=
  ctx <- deref contextRef ;;
  modify (setContextRef (Some (f ctx))).

(** A method of the context that paints on its canvas. *)
Definition paint (f : Context -> CanvasElement -> CanvasElement) : M unit :=
  ctx <- deref contextRef ;;
  modify (fun s => setCanvasRef (option_map (f ctx) (canvasRef s)) s).

(* ================================================================== *)
(** ** The component [SignaturePad] *)

Record Touch := mkTouch { touchClientX : Q; touchClientY : Q }.

(** A mouse or touch event.  [touches] is [None] where the event has no
    such member (mouse events), and the list of the contacts currently
    on the surface otherwise. *)
Record PointerEvent := mkEvent {
  clientX : Q;
  clientY : Q;
  touches : option (list Touch)
}.

(** What layout and the window decide: the pixel ratio (0 stands for any
    falsy value), the displayed size and the place of the canvas. *)
Record Layout := mkLayout {
  layoutPixelRatio : Q;
  layoutWidth : Z;
  layoutHeight : Z;
  layoutRect : DOMRect
}.

Definition setupCanvas (dpr : Q) (cc : CanvasElement * Context) : CanvasElement * Context :=
  let ratio := if Qeq_bool dpr 0 then 1%Q else dpr in
  let cc := setWidth (inject_Z (offsetWidth (fst cc)) * ratio) cc in
  let cc := setHeight (inject_Z (offsetHeight (fst cc)) * ratio) cc in
  let ctx := scale ratio ratio (snd cc) in
  let ctx := setLineCap round ctx in
  let ctx := setStrokeStyle "#000" ctx in
  let ctx := setLineWidth 2 ctx in
  (fst cc, ctx).

(** The body of [useLayoutEffect], run once after the first render. *)
Definition layoutEffect : M unit :=
  s <- get ;;
  match canvasRef s with
  | None => ret tt
  | Some canvas =>
      let cc := setupCanvas (devicePixelRatio s) (canvas, defaultContext) in
      modify (setCanvasRef (Some (fst cc))) ;;
      modify (setContextRef (Some (snd cc))) ;;
      modify (setListening true)
  end.

(** The listener exists only where the effect got past its guard, and it
    is registered after [contextRef] is set: neither [canvas] nor the
    context is null when it runs. *)
Definition handleResize : M unit :=
  s <- get ;;
  match canvasRef s with
  | None => ret tt
  | Some canvas =>
      let prevImage := toDataURL "image/png" canvas in
      ctx <- deref contextRef ;;
      let cc := setupCanvas (devicePixelRatio s) (canvas, ctx) in
      modify (setCanvasRef (Some (fst cc))) ;;
      modify (setContextRef (Some (snd cc))) ;;
      modify (fun s => setLoading (loading s ++ [prevImage]) s)
  end.

(** [img.onload] of the [k]-th pending image. *)
Definition onload (img : Image) : M unit :=
  paint (drawImage img 0 0).

Definition getCoordinates (e : PointerEvent) : M Point :=
  canvas <- deref canvasRef ;;
  let rect := boundingClientRect canvas in
  match touches e with
  | Some ts =>
      match ts with
      | t :: _ => ret (mkPoint (touchClientX t - left rect) (touchClientY t - top rect))
      | [] => throw
      end
  | None => ret (mkPoint (clientX e - left rect) (clientY e - top rect))
  end.

Definition canDraw (h : Hooks) : bool :=
  User_eqb (currentUser h) client && padActive h.

Definition startDrawing (h : Hooks) (e : PointerEvent) : M unit :=
  if negb (canDraw h) then ret tt
  else
    emit PreventDefault ;;
    setIsDrawing true ;;
    p <- getCoordinates e ;;
    onContext beginPath ;;
    onContext (moveTo (x p) (y p)).

Definition draw (h : Hooks) (e : PointerEvent) : M unit :=
  if negb (isDrawing h) || negb (canDraw h) then ret tt
  else
    emit PreventDefault ;;
    p <- getCoordinates e ;;
    onContext (lineTo (x p) (y p)) ;;
    paint stroke.

Definition stopDrawing (h : Hooks) (e : PointerEvent) : M unit :=
  if negb (isDrawing h) then ret tt
  else
    emit PreventDefault ;;
    setIsDrawing false ;;
    onContext closePath.

Definition clearCanvas (h : Hooks) : M unit :=
  s <- get ;;
  match canvasRef s, contextRef s with
  | Some canvas, Some _ =>
      paint (clearRect 0 0 (inject_Z (width canvas)) (inject_Z (height canvas))) ;;
      if SignatureStatus_eqb (signatureStatus h) signed
      then setSignatureStatus not_signed
      else ret tt
  | _, _ => ret tt
  end.

(** The link is appended to the body, clicked and removed again; what
    leaves the component is the download. *)
Definition downloadSignature (h : Hooks) : M unit :=
  s <- get ;;
  match canvasRef s with
  | None => ret tt
  | Some canvas =>
      let dataUrl := toDataURL ("image/" ++ fileFormat h) canvas in
      emit (Download dataUrl ("signature." ++ fileFormat h))
  end.

Definition requestSignature (h : Hooks) : M unit :=
  if negb (User_eqb (currentUser h) admin) then ret tt
  else
    clearCanvas h ;;
    setSignatureStatus requested ;;
    setPadActive true ;;
    setCurrentUser client.

Definition completeSignature (h : Hooks) : M unit :=
  if negb (User_eqb (currentUser h) client) then ret tt
  else
    setSignatureStatus signed ;;
    setPadActive false ;;
    setCurrentUser admin.

Definition toggleUser (h : Hooks) : M unit :=
  setCurrentUser (if User_eqb (currentUser h) admin then client else admin).

Definition getStatusColor (h : Hooks) : string :=
  match signatureStatus h with
  | signed => "#4caf50"
  | requested => "#ff9800"
  | not_signed => "#9e9e9e"
  end.

Definition getStatusText (h : Hooks) : string :=
  match signatureStatus h with
  | signed => "Signed"
  | requested => "Waiting for signature"
  | not_signed => "Not signed"
  end.

(** Which controls the render shows: the request button for the admin,
    disabled once signed; the complete button for the client while a
    signature is requested. *)
Definition requestButtonRendered (h : Hooks) : bool :=
  User_eqb (currentUser h) admin.

Definition requestButtonDisabled (h : Hooks) : bool :=
  SignatureStatus_eqb (signatureStatus h) signed.

Definition completeButtonRendered (h : Hooks) : bool :=
  User_eqb (currentUser h) client && SignatureStatus_eqb (signatureStatus h) requested.

(* ------------------------------------------------------------------ *)
(** ** Events and runs *)

Inductive Event :=
| MouseDown (e : PointerEvent)
| TouchStart (e : PointerEvent)
| MouseMove (e : PointerEvent)
| TouchMove (e : PointerEvent)
| MouseUp (e : PointerEvent)
| TouchEnd (e : PointerEvent)
| MouseLeave (e : PointerEvent)
| RequestSignature
| CompleteSignature
| Clear
| ToggleRole
| Export
| Relayout (l : Layout)      (* layout moves the canvas, no resize event *)
| Resize (l : Layout)        (* layout changes, then the window fires resize *)
| ImageLoad (k : nat).       (* the decode of the k-th pending image completes *)

Definition relayout (l : Layout) (s : Engine) : Engine :=
  mkEngine (hooks s)
    (option_map (fun c => mkCanvas (width c) (height c) (layoutWidth l) (layoutHeight l)
                                   (layoutRect l) (bitmap c)) (canvasRef s))
    (contextRef s) (layoutPixelRatio l) (listening s) (loading s).

Fixpoint removeNth {A} (k : nat) (l : list A) : list A :=
  match k, l with
  | _, [] => []
  | O, _ :: r => r
  | S k', a :: r => a :: removeNth k' r
  end.

(** The handler an event reaches, closed over the hooks [h] of the
    current render. *)
Definition handle (h : Hooks) (ev : Event) : M unit :=
  match ev with
  | MouseDown e | TouchStart e => startDrawing h e
  | MouseMove e | TouchMove e => draw h e
  | MouseUp e | TouchEnd e | MouseLeave e => stopDrawing h e
  | RequestSignature => requestSignature h
  | CompleteSignature => completeSignature h
  | Clear => clearCanvas h
  | ToggleRole => toggleUser h
  | Export => downloadSignature h
  | Relayout l => modify (relayout l)
  | Resize l =>
      modify (relayout l) ;;
      s <- get ;;
      if listening s then handleResize else ret tt
  | ImageLoad k =>
      s <- get ;;
      match nth_error (loading s) k with
      | None => ret tt
      | Some d =>
          modify (setLoading (removeNth k (loading s))) ;;
          match decode d with
          | Some img => onload img
          | None => ret tt
          end
      end
  end.

Definition engineOf {A} (r : Result A) : Engine :=
  match r with Ok _ s _ => s | TypeError s _ => s end.

Definition outputOf {A} (r : Result A) : list Effect :=
  match r with Ok _ _ out => out | TypeError _ out => out end.

(** One event: its handler runs to the end, then the component renders
    again with the queued hook values. *)
Definition step (s : Engine) (ev : Event) : Engine :=
  engineOf (handle (hooks s) ev s).

Definition run (s : Engine) (evs : list Event) : Engine :=
  fold_left step evs s.

(** The first render and its layout effect. *)
Definition initialHooks : Hooks := mkHooks false admin not_signed false "png".

Definition firstRender (l : Layout) : Engine :=
  mkEngine initialHooks
    (Some (mkCanvas 300 150 (layoutWidth l) (layoutHeight l) (layoutRect l) []))
    None (layoutPixelRatio l) false [].

Definition mount (l : Layout) : Engine :=
  engineOf (layoutEffect (firstRender l)).

(* ================================================================== *)
(** ** Kinds of pointer events *)

Definition isPenDown (ev : Event) : bool :=
  match ev with MouseDown _ | TouchStart _ => true | _ => false end.

Definition isPenMove (ev : Event) : bool :=
  match ev with MouseMove _ | TouchMove _ => true | _ => false end.

Definition isPenUp (ev : Event) : bool :=
  match ev with MouseUp _ | TouchEnd _ | MouseLeave _ => true | _ => false end.

Definition isPointer (ev : Event) : bool :=
  isPenDown ev || isPenMove ev || isPenUp ev.


(* ================================================================== *)
(** ** Concrete surroundings used to exercise the component *)

(** A 300 by 150 canvas at pixel ratio 1, placed at (10, 20). *)
Definition desk : Layout := mkLayout 1 300 150 (mkRect 10 20).

(** The same canvas in a window zoomed out to 50%. *)
Definition zoomedOut : Layout := mkLayout (1 # 2) 300 150 (mkRect 10 20).

(** The canvas of [desk] shrunk to half its displayed size. *)
Definition shrunk : Layout := mkLayout 1 150 75 (mkRect 10 20).

Definition mouseAt (px py : Q) : PointerEvent := mkEvent px py None.

Definition touchAt (ts : list Touch) : PointerEvent := mkEvent 0 0 (Some ts).

(** The admin requests, the client draws one segment between the two
    logical points and lifts the pen. *)
Definition signedStroke (ax ay bx by_ : Q) : list Event :=
  [RequestSignature;
   MouseDown (mouseAt (ax + 10) (ay + 20));
   MouseMove (mouseAt (bx + 10) (by_ + 20));
   MouseUp (mouseAt (bx + 10) (by_ + 20))].

(* ================================================================== *)
(** ** Invariants of the workflow *)

(** The pad is active only while a signature is requested. *)
Definition padActiveOnlyWhileRequested (h : Hooks) : Prop :=
  padActive h = true -> signatureStatus h = requested.

(** Both refs are set: the state of every engine after [mount]. *)
Definition mounted (s : Engine) : Prop :=
  (exists canvas, canvasRef s = Some canvas)
  /\ (exists ctx, contextRef s = Some ctx)
  /\ listening s = true.

(** [frames R m]: running [m] relates the engine before to the engine
    after by [R], whether [m] returns or throws. *)
Definition frames {A} (R : Engine -> Engine -> Prop) (m : M A) : Prop :=
  forall s, R s (engineOf (m s)).

(** The user, the status, the pad flag and the file format agree. *)
Definition sameWorkflow (s s' : Engine) : Prop :=
  currentUser (hooks s') = currentUser (hooks s)
  /\ signatureStatus (hooks s') = signatureStatus (hooks s)
  /\ padActive (hooks s') = padActive (hooks s)
  /\ fileFormat (hooks s') = fileFormat (hooks s).

(** The file format hook is never written. *)
Definition sameFormat (s s' : Engine) : Prop :=
  fileFormat (hooks s') = fileFormat (hooks s).

(** Once mounted, always mounted. *)
Definition staysMounted (s s' : Engine) : Prop := mounted s -> mounted s'.

(** The ratio [setupCanvas] works with: [devicePixelRatio || 1]. *)
Definition ratioOf (dpr : Q) : Q := if Qeq_bool dpr 0 then 1%Q else dpr.

(** The canvas after layout has given it the size and place of [l]. *)
Definition laidOut (l : Layout) (c : CanvasElement) : CanvasElement :=
  mkCanvas (width c) (height c) (layoutWidth l) (layoutHeight l) (layoutRect l) (bitmap c).

(** The pixel ratio of [l] is falsy (and replaced by 1) or at least 1. *)
Definition notZoomedOut (l : Layout) : Prop :=
  layoutPixelRatio l == 0 \/ 1 <= layoutPixelRatio l.

(** The context scales user space up, or not at all. *)
Definition scaleAtLeastOne (s : Engine) : Prop :=
  exists ctx, contextRef s = Some ctx
              /\ 1 <= sx (transform ctx) /\ 1 <= sy (transform ctx).

Definition keepsScale (s s' : Engine) : Prop :=
  scaleAtLeastOne s -> scaleAtLeastOne s'.

Definition resizesNotZoomedOut (ev : Event) : Prop :=
  match ev with Resize l => notZoomedOut l | _ => True end.

(** Follows the spec's words: the place on the resized surface that
    corresponds, in proportion, to [p] on the surface before. *)
Definition correspondingPosition (before after : CanvasElement) (p : Point) : Point :=
  mkPoint (x p * inject_Z (width after) / inject_Z (width before))
          (y p * inject_Z (height after) / inject_Z (height before)).

(** The canvas of [desk] after the client's stroke from (100, 50) to
    (200, 100), and its context after the pen was lifted. *)
Definition strokedCanvas : CanvasElement :=
  mkCanvas 300 150 300 150 (mkRect 10 20)
    [Stroked (mkTransform 1 1)
       [mkSubpath [mkPoint 100 50; mkPoint 200 100] false] 2 round "#000";
     Cleared (mkBox 0 0 300 150)].

Definition strokedContext : Context :=
  mkContext (mkTransform 1 1)
    [mkSubpath [mkPoint 100 50] false;
     mkSubpath [mkPoint 100 50; mkPoint 200 100] true]
    round "#000" 2.

(** That canvas shrunk to 150 by 75, its redraw completed. *)
Definition shrunkCanvas : CanvasElement :=
  mkCanvas 150 75 150 75 (mkRect 10 20)
    [Picture 300 150 (bitmap strokedCanvas) (mkTransform 1 1) 0 0].

(** One stroke, two resizes whose redraws are both still pending, and a
    second stroke that crosses the place of the first. *)
Definition resizeRace : list Event :=
  signedStroke 10 10 50 50
  ++ [Resize desk; Resize shrunk;
      MouseDown (mouseAt 20 70); MouseMove (mouseAt 60 30)].

(** In that race: the ink captured by the first resize, the stroke drawn
    after the second, and the canvas and context as the stroke left
    them. *)
Definition firstInk : Bitmap :=
  [Stroked (mkTransform 1 1)
     [mkSubpath [mkPoint 10 10; mkPoint 50 50] false] 2 round "#000";
   Cleared (mkBox 0 0 300 150)].

Definition crossingStroke : Layer :=
  Stroked (mkTransform 1 1)
    [mkSubpath [mkPoint 10 50; mkPoint 50 10] false] 2 round "#000".

Definition racedCanvas : CanvasElement :=
  mkCanvas 150 75 150 75 (mkRect 10 20) [crossingStroke].

Definition racedContext : Context :=
  mkContext (mkTransform 1 1)
    [mkSubpath [mkPoint 10 50; mkPoint 50 10] false] round "#000" 2.

Definition staleImage : Image := mkImage 300 150 firstInk.

(* ================================================================== *)
(** ** Further notions for the properties of the whole component *)

(** The ink of the component's canvas at a device point; none without a
    canvas. *)
Definition inkOf (s : Engine) (p : Point) : bool :=
  match canvasRef s with
  | Some canvas => inkAt canvas p
  | None => false
  end.

(** What the render offers to the user: the request button exists for the
    admin and is disabled once signed, the complete button exists for the
    client while a signature is requested; the other controls and the
    canvas listeners are always there. *)
Definition offered (h : Hooks) (ev : Event) : bool :=
  match ev with
  | RequestSignature => requestButtonRendered h && negb (requestButtonDisabled h)
  | CompleteSignature => completeButtonRendered h
  | _ => true
  end.

(** A step through the rendered controls: what is not offered cannot be
    clicked. *)
Definition uiStep (s : Engine) (ev : Event) : Engine :=
  if offered (hooks s) ev then step s ev else s.

Definition uiRun (s : Engine) (evs : list Event) : Engine :=
  fold_left uiStep evs s.

(** Does the pointer handler get past its guard? *)
Definition acted (h : Hooks) (ev : Event) : bool :=
  match ev with
  | MouseDown _ | TouchStart _ => canDraw h
  | MouseMove _ | TouchMove _ => isDrawing h && canDraw h
  | MouseUp _ | TouchEnd _ | MouseLeave _ => isDrawing h
  | _ => false
  end.

(** A pointer event as the browser delivers it: a touch event names at
    least one contact. *)
Definition carriesPosition (ev : Event) : bool :=
  match ev with
  | MouseDown e | TouchStart e | MouseMove e | TouchMove e =>
      match touches e with Some [] => false | _ => true end
  | _ => true
  end.

(** The events that may take ink away. *)
Definition mayErase (ev : Event) : bool :=
  match ev with
  | Clear | RequestSignature | Resize _ => true
  | _ => false
  end.

(** A signature is requested only while the pad is active. *)
Definition requestedOnlyWhileActive (h : Hooks) : Prop :=
  signatureStatus h = requested -> padActive h = true.

(** Every pixel inked before is inked after. *)
Definition keepsInk (s s' : Engine) : Prop :=
  forall p, inkOf s p = true -> inkOf s' p = true.

(** No ink at all: not on the canvas, whatever its size, and not in the
    images waiting to be drawn on it. *)
Definition inklessData (d : DataURL) : Prop :=
  match d with
  | EmptyData => True
  | Encoded _ _ _ content => forall p, inkLayers content p = false
  end.

Definition inkless (s : Engine) : Prop :=
  (forall canvas, canvasRef s = Some canvas -> forall p, inkLayers (bitmap canvas) p = false)
  /\ Forall inklessData (loading s).

Definition isRequest (ev : Event) : bool :=
  match ev with RequestSignature => true | _ => false end.

(** The position an event carries, relative to the canvas rectangle: what
    [getCoordinates] returns for it, if it returns. *)
Definition positionOf (e : PointerEvent) (rect : DOMRect) : option Point :=
  match touches e with
  | Some (t :: _) => Some (mkPoint (touchClientX t - left rect) (touchClientY t - top rect))
  | Some [] => None
  | None => Some (mkPoint (clientX e - left rect) (clientY e - top rect))
  end.

(** The pen the component draws with, and a scale that can be undone. *)
Definition fixedPen (ctx : Context) : Prop :=
  lineCap ctx = round /\ strokeStyle ctx = "#000" /\ lineWidth ctx = 2%Q
  /\ sx (transform ctx) = sy (transform ctx)
  /\ invertible (transform ctx) = true.

(** Every stroke of a layer, the strokes inside a drawn image included,
    was painted with that pen under such a scale. *)
Fixpoint paintedWithFixedPen (l : Layer) : Prop :=
  match l with
  | Stroked t _ lw cap style =>
      cap = round /\ style = "#000" /\ lw = 2%Q
      /\ sx t = sy t /\ invertible t = true
  | Cleared _ => True
  | Picture _ _ pix _ _ _ =>
      (fix all (ls : list Layer) : Prop :=
         match ls with
         | [] => True
         | l' :: rest => paintedWithFixedPen l' /\ all rest
         end) pix
  end.

Fixpoint allPaintedWithFixedPen (ls : Bitmap) : Prop :=
  match ls with
  | [] => True
  | l :: rest => paintedWithFixedPen l /\ allPaintedWithFixedPen rest
  end.

Definition capturedWithFixedPen (d : DataURL) : Prop :=
  match d with
  | EmptyData => True
  | Encoded _ _ _ content => allPaintedWithFixedPen content
  end.

Definition penInvariant (s : Engine) : Prop :=
  (forall ctx, contextRef s = Some ctx -> fixedPen ctx)
  /\ (forall canvas, canvasRef s = Some canvas -> allPaintedWithFixedPen (bitmap canvas))
  /\ Forall capturedWithFixedPen (loading s).

Definition keepsPen (s s' : Engine) : Prop := penInvariant s -> penInvariant s'.

(** The events whose handlers neither capture the canvas nor draw a
    capture. *)
Definition drawsNoImage (ev : Event) : bool :=
  match ev with Resize _ | ImageLoad _ => false | _ => true end.

(** Backing size and scale agree with the displayed size and the pixel
    ratio of the window. *)
Definition sized (s : Engine) : Prop :=
  exists canvas ctx,
    canvasRef s = Some canvas /\ contextRef s = Some ctx /\ listening s = true
    /\ width canvas
       = toUnsignedLong (inject_Z (offsetWidth canvas) * ratioOf (devicePixelRatio s))
    /\ height canvas
       = toUnsignedLong (inject_Z (offsetHeight canvas) * ratioOf (devicePixelRatio s))
    /\ transform ctx
       = mkTransform (1 * ratioOf (devicePixelRatio s)) (1 * ratioOf (devicePixelRatio s)).

Definition keepsSized (s s' : Engine) : Prop := sized s -> sized s'.

Definition isRelayout (ev : Event) : bool :=
  match ev with Relayout _ => true | _ => false end.

(** The canvas laid out with no width: it has no pixels. *)
Definition collapsed : Layout := mkLayout 1 0 150 (mkRect 10 20).
(* ================================================================== *)
(** * Properties *)

(** Unfolds the monad and the record setters, leaving the case analysis
    on the refs to the proof. *)
Ltac unfold_handler :=
  cbv [bind ret get modify emit throw deref onContext paint
       setIsDrawing setCurrentUser setSignatureStatus setPadActive
       withIsDrawing withCurrentUser withSignatureStatus withPadActive
       setHooks setCanvasRef setContextRef setListening setLoading
       engineOf outputOf negb] in *;
  cbn [hooks canvasRef contextRef devicePixelRatio listening loading
       isDrawing currentUser signatureStatus padActive fileFormat app] in *.

(** ** The model on concrete runs *)

Example mount_desk :
  mount desk
  = mkEngine initialHooks
      (Some (mkCanvas 300 150 300 150 (mkRect 10 20) []))
      (Some (mkContext (mkTransform 1 1) [] round "#000" 2))
      1 true [].
Proof. vm_compute. reflexivity. Qed.

(** At half the pixel ratio the backing store is half the displayed size
    and user space is scaled by one half. *)
Example mount_zoomedOut :
  mount zoomedOut
  = mkEngine initialHooks
      (Some (mkCanvas 150 75 300 150 (mkRect 10 20) []))
      (Some (mkContext (mkTransform (1 # 2) (1 # 2)) [] round "#000" 2))
      (1 # 2) true [].
Proof. vm_compute. reflexivity. Qed.

(** The request clears, the pen-down starts a path at the mapped point,
    the move strokes the path so far, the pen-up closes it. *)
Example stroke_on_desk :
  run (mount desk) (signedStroke 100 50 200 100)
  = mkEngine (mkHooks false client requested true "png")
      (Some strokedCanvas) (Some strokedContext) 1 true [].
Proof. vm_compute. reflexivity. Qed.

(** The pen of width 2 reaches one unit to each side of the segment. *)
Example ink_of_the_stroke :
  inkAt strokedCanvas (mkPoint 150 75) = true
  /\ inkAt strokedCanvas (mkPoint 150 76) = true
  /\ inkAt strokedCanvas (mkPoint 150 77) = false
  /\ inkAt strokedCanvas (mkPoint 99 50) = true
  /\ inkAt strokedCanvas (mkPoint 98 50) = false.
Proof. repeat apply conj; vm_compute; reflexivity. Qed.

(** A right-angle turn is joined by a miter: the corner square beyond the
    vertex is inked, up to the miter tip and not past it; the open ends
    carry the caps. *)
Example miter_at_a_right_angle :
  let turn := mkSubpath [mkPoint 0 0; mkPoint 10 0; mkPoint 10 10] false in
  Canvas2D.subpathCovers round 1 turn (mkPoint (109 # 10) (- 9 # 10)) = true
  /\ Canvas2D.subpathCovers round 1 turn (mkPoint (111 # 10) (- 1 # 2)) = false
  /\ Canvas2D.subpathCovers round 1 turn (mkPoint (- 1 # 2) 0) = true
  /\ Canvas2D.subpathCovers butt 1 turn (mkPoint (- 1 # 2) 0) = false
  /\ Canvas2D.subpathCovers square 1 turn (mkPoint (- 1) 1) = true.
Proof. repeat apply conj; vm_compute; reflexivity. Qed.

(** A turn sharper than the miter limit allows is cut to a bevel, and a
    turn straight back has no join at all: only the closed end of the
    body reaches the vertex. *)
Example bevel_at_a_sharp_turn :
  let sharp := mkSubpath [mkPoint 0 0; mkPoint 10 0; mkPoint 0 1] false in
  let back := mkSubpath [mkPoint 100 50; mkPoint 200 100; mkPoint 20 10] false in
  Canvas2D.subpathCovers round 1 sharp (mkPoint (1002 # 100) 0) = true
  /\ Canvas2D.subpathCovers round 1 sharp (mkPoint (1006 # 100) 0) = false
  /\ Canvas2D.subpathCovers round 1 sharp (mkPoint 12 (- 1 # 2)) = false
  /\ Canvas2D.subpathCovers round 1 back (mkPoint (401 # 2) (201 # 2)) = false
  /\ Canvas2D.subpathCovers round 1 back (mkPoint (39 # 2) (19 # 2)) = true.
Proof. repeat apply conj; vm_compute; reflexivity. Qed.

(** A subpath of one point, or of one point repeated, inks nothing, and a
    closed subpath is joined at its first point as well. *)
Example zero_length_and_closed_subpaths :
  let dot := mkSubpath [mkPoint 5 5; mkPoint 5 5] false in
  let triangle := mkSubpath [mkPoint 0 0; mkPoint 10 0; mkPoint 10 10] true in
  Canvas2D.subpathCovers round 1 dot (mkPoint 5 5) = false
  /\ Canvas2D.subpathCovers round 1 triangle (mkPoint 5 5) = true
  /\ Canvas2D.subpathCovers round 1 triangle (mkPoint (- 1 # 2) (- 1 # 2)) = true
  /\ Canvas2D.subpathCovers round 1 triangle (mkPoint (- 3) (- 1)) = false.
Proof. repeat apply conj; vm_compute; reflexivity. Qed.

(** A pen-down by the admin is ignored. *)
Example admin_cannot_draw :
  run (mount desk) [MouseDown (mouseAt 110 70); MouseMove (mouseAt 210 120)] = mount desk.
Proof. vm_compute. reflexivity. Qed.

(** ** The permission gate *)

Lemma startDrawing_denied (h : Hooks) (e : PointerEvent) (s : Engine) :
  canDraw h = false -> startDrawing h e s = Ok tt s [].
Proof.
  intros Hcd. unfold startDrawing. rewrite Hcd. reflexivity.
Qed.

Lemma draw_denied (h : Hooks) (e : PointerEvent) (s : Engine) :
  canDraw h = false -> draw h e s = Ok tt s [].
Proof.
  intros Hcd. unfold draw. rewrite Hcd, orb_true_r. reflexivity.
Qed.

Lemma draw_not_drawing (h : Hooks) (e : PointerEvent) (s : Engine) :
  isDrawing h = false -> draw h e s = Ok tt s [].
Proof.
  intros Hd. unfold draw. rewrite Hd. reflexivity.
Qed.

(** Lifting the pen never touches the canvas: it only closes the path. *)
Lemma stopDrawing_canvas (h : Hooks) (e : PointerEvent) (s : Engine) :
  canvasRef (engineOf (stopDrawing h e s)) = canvasRef s.
Proof.
  unfold stopDrawing. destruct (isDrawing h); [|reflexivity].
  unfold_handler. destruct (contextRef s); reflexivity.
Qed.

(** Starting a stroke only moves the path's current point. *)
Lemma startDrawing_canvas (h : Hooks) (e : PointerEvent) (s : Engine) :
  canvasRef (engineOf (startDrawing h e s)) = canvasRef s.
Proof.
  unfold startDrawing, getCoordinates. destruct (canDraw h); [|reflexivity].
  unfold_handler. destruct (canvasRef s) as [c|]; [|reflexivity].
  destruct (touches e) as [[|t ts]|]; unfold_handler;
    destruct (contextRef s); reflexivity.
Qed.

Lemma canDraw_spec (h : Hooks) :
  canDraw h = true <-> currentUser h = client /\ padActive h = true.
Proof.
  unfold canDraw. destruct (currentUser h), (padActive h); cbn; intuition congruence.
Qed.

(** In any state at all, a pointer event that changes the canvas found
    the client active on an active pad. *)
Lemma pointer_paints_only_if_canDraw (s : Engine) (ev : Event) :
  isPointer ev = true ->
  canvasRef (step s ev) <> canvasRef s ->
  canDraw (hooks s) = true.
Proof.
  intros Hp Hne. destruct (canDraw (hooks s)) eqn:Hcd; [reflexivity|].
  exfalso. apply Hne. unfold step.
  destruct ev; try discriminate Hp; cbn [handle];
    rewrite ?startDrawing_denied, ?draw_denied by assumption;
    try reflexivity; apply stopDrawing_canvas.
Qed.

Lemma denied_pointer_is_ignored (s : Engine) (ev : Event) :
  isPenDown ev || isPenMove ev = true ->
  canDraw (hooks s) = false ->
  handle (hooks s) ev s = Ok tt s [].
Proof.
  intros Hp Hcd.
  destruct ev; try discriminate Hp; cbn [handle];
    auto using startDrawing_denied, draw_denied.
Qed.

(** C1. Permission gating.  After any sequence of events from the mounted
    component, a pen-down, pen-move or pen-up event changes the canvas
    only if the current user is the client and the pad is active.  In
    every other combination of user, status and pad flag a pen-down or a
    pen-move is ignored entirely: the canvas and its pixels are as
    before, nothing is emitted, and [isDrawing] keeps its value, so a
    flag that was false stays false. *)
Theorem permission_gating (l : Layout) (evs : list Event) (ev : Event) :
  isPointer ev = true ->
  let s := run (mount l) evs in
  (canvasRef (step s ev) <> canvasRef s ->
   currentUser (hooks s) = client /\ padActive (hooks s) = true)
  /\ (~ (currentUser (hooks s) = client /\ padActive (hooks s) = true) ->
      isPenDown ev || isPenMove ev = true ->
      canvasRef (step s ev) = canvasRef s
      /\ step s ev = s
      /\ outputOf (handle (hooks s) ev s) = []
      /\ (isDrawing (hooks s) = false -> isDrawing (hooks (step s ev)) = false)).
Proof.
  intros Hp s. split.
  - intros Hne. apply canDraw_spec.
    now apply pointer_paints_only_if_canDraw with (ev := ev).
  - intros Hno Hdm.
    assert (Hcd : canDraw (hooks s) = false).
    { destruct (canDraw (hooks s)) eqn:E; [|reflexivity].
      exfalso. apply Hno. now apply canDraw_spec. }
    pose proof (denied_pointer_is_ignored s ev Hdm Hcd) as Hig.
    unfold step. rewrite Hig. cbn. auto.
Qed.

Lemma permission_gating_witness :
  (currentUser (hooks (run (mount desk) [RequestSignature; MouseDown (mouseAt 20 30)])) = client
   /\ padActive (hooks (run (mount desk) [RequestSignature; MouseDown (mouseAt 20 30)])) = true)
  /\ step (mount desk) (MouseDown (mouseAt 20 30)) = mount desk.
Proof.
  split.
  - apply (proj1 (permission_gating desk [RequestSignature; MouseDown (mouseAt 20 30)]
                    (MouseMove (mouseAt 60 70)) eq_refl)).
    vm_compute. discriminate.
  - apply (proj2 (permission_gating desk [] (MouseDown (mouseAt 20 30)) eq_refl)).
    + vm_compute. intros [H _]. discriminate H.
    + reflexivity.
Defined.

(* ------------------------------------------------------------------ *)
(** ** The workflow state machine *)

(** [frames R m]: running [m] relates the engine before to the engine
    after by [R], whether [m] returns or throws. *)
Section Frames.
Variable R : Engine -> Engine -> Prop.
Hypothesis R_refl : forall s, R s s.
Hypothesis R_trans : forall s1 s2 s3, R s1 s2 -> R s2 s3 -> R s1 s3.

Lemma frames_ret {A} (a : A) : frames R (ret a).
Proof. intros s. apply R_refl. Qed.

Lemma frames_get : frames R get.
Proof. intros s. apply R_refl. Qed.

Lemma frames_emit (e : Effect) : frames R (emit e).
Proof. intros s. apply R_refl. Qed.

Lemma frames_throw {A} : frames R (@throw A).
Proof. intros s. apply R_refl. Qed.

Lemma frames_deref {A} (ref : Engine -> option A) : frames R (deref ref).
Proof. intros s. unfold deref. destruct (ref s); apply R_refl. Qed.

Lemma frames_modify (f : Engine -> Engine) :
  (forall s, R s (f s)) -> frames R (modify f).
Proof. intros Hf s. apply Hf. Qed.

Lemma frames_bind {A B} (m : M A) (k : A -> M B) :
  frames R m -> (forall a, frames R (k a)) -> frames R (bind m k).
Proof.
  intros Hm Hk s. unfold bind. specialize (Hm s).
  destruct (m s) as [a s1 out1|s1 out1]; cbn in *; [|exact Hm].
  specialize (Hk a s1).
  destruct (k a s1); cbn in *; eapply R_trans; eassumption.
Qed.

Lemma frames_if {A} (b : bool) (m1 m2 : M A) :
  frames R m1 -> frames R m2 -> frames R (if b then m1 else m2).
Proof. destruct b; auto. Qed.
Lemma frames_onContext (f : Context -> Context) :
  (forall s ctx, contextRef s = Some ctx -> R s (setContextRef (Some (f ctx)) s)) ->
  frames R (onContext f).
Proof.
  intros Hf s. unfold onContext, bind, deref, modify.
  destruct (contextRef s) as [ctx|] eqn:Hx; cbn; auto.
Qed.

Lemma frames_paint (f : Context -> CanvasElement -> CanvasElement) :
  (forall s ctx, contextRef s = Some ctx ->
                 R s (setCanvasRef (option_map (f ctx) (canvasRef s)) s)) ->
  frames R (paint f).
Proof.
  intros Hf s. unfold paint, bind, deref, modify.
  destruct (contextRef s) as [ctx|] eqn:Hx; cbn; auto.
Qed.

End Frames.

Lemma sameWorkflow_refl (s : Engine) : sameWorkflow s s.
Proof. unfold sameWorkflow. auto. Qed.

Lemma sameWorkflow_trans (s1 s2 s3 : Engine) :
  sameWorkflow s1 s2 -> sameWorkflow s2 s3 -> sameWorkflow s1 s3.
Proof. unfold sameWorkflow. intuition congruence. Qed.

(** Steps through a handler: a frame of each primitive gives a frame of
    the whole. *)
Ltac frame_handler refl trans :=
  repeat match goal with
         | |- frames _ (bind _ _) => apply (frames_bind _ trans); [|intros ?]
         | |- frames _ (ret _) => apply (frames_ret _ refl)
         | |- frames _ get => apply (frames_get _ refl)
         | |- frames _ (emit _) => apply (frames_emit _ refl)
         | |- frames _ throw => apply (frames_throw _ refl)
         | |- frames _ (deref _) => apply (frames_deref _ refl)
         | |- frames _ (modify _) => apply frames_modify; intros ?
         | |- frames _ (onContext _) => apply (frames_onContext _ refl); intros ? ? ?
         | |- frames _ (paint _) => apply (frames_paint _ refl); intros ? ? ?
         | |- frames _ (if ?b then _ else _) => destruct b
         | |- frames _ (match ?x with _ => _ end) => destruct x
         end.

(** Pointer, export, layout, resize and image-load events leave the user,
    the status, the pad flag and the file format alone. *)
Lemma handle_sameWorkflow (h : Hooks) (ev : Event) :
  match ev with
  | RequestSignature | CompleteSignature | Clear | ToggleRole => True
  | _ => frames sameWorkflow (handle h ev)
  end.
Proof.
  destruct ev; try exact I; cbn [handle];
    unfold startDrawing, draw, stopDrawing, downloadSignature, handleResize,
           onload, getCoordinates, onContext, paint, setIsDrawing;
    frame_handler sameWorkflow_refl sameWorkflow_trans;
    unfold sameWorkflow; cbn; auto.
Qed.

(** What each workflow handler does, as an equation. *)
Lemma clearCanvas_mounted (h : Hooks) (s : Engine) (canvas : CanvasElement) (ctx : Context) :
  canvasRef s = Some canvas ->
  contextRef s = Some ctx ->
  clearCanvas h s
  = Ok tt
      (setHooks
         (if SignatureStatus_eqb (signatureStatus h) signed
          then withSignatureStatus not_signed (hooks s) else hooks s)
         (setCanvasRef
            (Some (clearRect 0 0 (inject_Z (width canvas)) (inject_Z (height canvas))
                             ctx canvas)) s))
      [].
Proof.
  destruct s as [hk c x dpr li lo]. cbn. intros -> ->.
  unfold clearCanvas. unfold_handler.
  destruct (SignatureStatus_eqb (signatureStatus h) signed); reflexivity.
Qed.

Lemma clearCanvas_unmounted (h : Hooks) (s : Engine) :
  canvasRef s = None \/ contextRef s = None ->
  clearCanvas h s = Ok tt s [].
Proof.
  destruct s as [hk [c|] [x|] dpr li lo]; cbn; intros [H|H];
    try discriminate H; reflexivity.
Qed.

Lemma clearCanvas_hooks (h : Hooks) (s : Engine) :
  hooks (engineOf (clearCanvas h s)) = hooks s
  \/ (signatureStatus h = signed
      /\ hooks (engineOf (clearCanvas h s)) = withSignatureStatus not_signed (hooks s)).
Proof.
  destruct (canvasRef s) as [canvas|] eqn:Hc; [destruct (contextRef s) as [ctx|] eqn:Hx|].
  - rewrite (clearCanvas_mounted h s canvas ctx Hc Hx). cbn.
    destruct (signatureStatus h); cbn; auto.
  - rewrite clearCanvas_unmounted by auto. auto.
  - rewrite clearCanvas_unmounted by auto. auto.
Qed.

Lemma completeSignature_client (h : Hooks) (s : Engine) :
  currentUser h = client ->
  completeSignature h s
  = Ok tt (setHooks (withCurrentUser admin
                       (withPadActive false (withSignatureStatus signed (hooks s)))) s) [].
Proof.
  intros Hu. unfold completeSignature. rewrite Hu. reflexivity.
Qed.

Lemma completeSignature_admin (h : Hooks) (s : Engine) :
  currentUser h = admin -> completeSignature h s = Ok tt s [].
Proof.
  intros Hu. unfold completeSignature. rewrite Hu. reflexivity.
Qed.

Lemma requestSignature_client (h : Hooks) (s : Engine) :
  currentUser h = client -> requestSignature h s = Ok tt s [].
Proof.
  intros Hu. unfold requestSignature. rewrite Hu. reflexivity.
Qed.

(** The admin's request: the canvas as [clearCanvas] leaves it, and the
    three hooks written after it. *)
Lemma requestSignature_admin (h : Hooks) (s : Engine) :
  currentUser h = admin ->
  engineOf (requestSignature h s)
  = setHooks (mkHooks (isDrawing (hooks s)) client requested true (fileFormat (hooks s)))
             (engineOf (clearCanvas h s))
  /\ outputOf (requestSignature h s) = [].
Proof.
  intros Hu. unfold requestSignature, clearCanvas. rewrite Hu.
  destruct s as [hk [c|] [x|] dpr li lo]; unfold_handler;
    try destruct (SignatureStatus_eqb (signatureStatus h) signed);
    split; reflexivity.
Qed.

Lemma step_keeps_padActiveOnlyWhileRequested (s : Engine) (ev : Event) :
  padActiveOnlyWhileRequested (hooks s) ->
  padActiveOnlyWhileRequested (hooks (step s ev)).
Proof.
  unfold padActiveOnlyWhileRequested. intros Hinv.
  pose proof (handle_sameWorkflow (hooks s) ev) as Hf.
  destruct ev;
    try (destruct (Hf s) as (Hu & Hst & Hp & _); unfold step;
         rewrite Hst, Hp; exact Hinv);
    clear Hf; unfold step; cbn [handle].
  - (* RequestSignature *)
    destruct (currentUser (hooks s)) eqn:Hu.
    + rewrite (proj1 (requestSignature_admin _ s Hu)). reflexivity.
    + rewrite requestSignature_client by assumption. exact Hinv.
  - (* CompleteSignature *)
    destruct (currentUser (hooks s)) eqn:Hu.
    + rewrite completeSignature_admin by assumption. exact Hinv.
    + rewrite completeSignature_client by assumption. cbn. discriminate.
  - (* Clear *)
    destruct (clearCanvas_hooks (hooks s) s) as [-> | [Hst ->]]; [exact Hinv|].
    cbn. intros Hp. specialize (Hinv Hp). congruence.
  - (* ToggleRole *)
    cbn. exact Hinv.
Qed.

Lemma run_keeps_padActiveOnlyWhileRequested (evs : list Event) (s : Engine) :
  padActiveOnlyWhileRequested (hooks s) ->
  padActiveOnlyWhileRequested (hooks (run s evs)).
Proof.
  revert s. induction evs as [|ev evs IH]; intros s Hinv; [exact Hinv|].
  cbn [run fold_left]. apply IH. now apply step_keeps_padActiveOnlyWhileRequested.
Qed.

Lemma mount_hooks (l : Layout) : hooks (mount l) = initialHooks.
Proof. reflexivity. Qed.

(** Toggling the role writes the role and nothing else. *)
Lemma toggleUser_effect (s : Engine) :
  handle (hooks s) ToggleRole s
  = Ok tt
      (setHooks (withCurrentUser
                   (if User_eqb (currentUser (hooks s)) admin then client else admin)
                   (hooks s)) s)
      [].
Proof. reflexivity. Qed.

(** C8. State-machine invariant.  In every state reached from the mounted
    component by any sequence of events (the five workflow actions, and
    pointer, resize and image-load events as well), an active pad implies
    that the status is requested.  Toggling the role changes the current
    user to the other one and leaves the pad flag, the status, the
    drawing flag, the file format, the canvas and everything else as they
    were. *)
Theorem padActive_implies_requested (l : Layout) (evs : list Event) :
  let s := run (mount l) evs in
  (padActive (hooks s) = true -> signatureStatus (hooks s) = requested)
  /\ padActive (hooks (step s ToggleRole)) = padActive (hooks s)
  /\ signatureStatus (hooks (step s ToggleRole)) = signatureStatus (hooks s)
  /\ isDrawing (hooks (step s ToggleRole)) = isDrawing (hooks s)
  /\ currentUser (hooks (step s ToggleRole))
     = (match currentUser (hooks s) with admin => client | client => admin end)
  /\ canvasRef (step s ToggleRole) = canvasRef s
  /\ contextRef (step s ToggleRole) = contextRef s
  /\ loading (step s ToggleRole) = loading s.
Proof.
  intros s. split.
  - apply (run_keeps_padActiveOnlyWhileRequested evs (mount l)).
    rewrite mount_hooks. intros H. discriminate H.
  - unfold step. rewrite toggleUser_effect. cbn.
    destruct (currentUser (hooks s)); cbn; auto 10.
Qed.

Lemma padActive_implies_requested_witness :
  signatureStatus (hooks (run (mount desk) [RequestSignature; ToggleRole])) = requested.
Proof.
  apply (proj1 (padActive_implies_requested desk [RequestSignature; ToggleRole])).
  reflexivity.
Defined.

Lemma completeSignature_effect (s : Engine) :
  step s CompleteSignature
  = match currentUser (hooks s) with
    | client => setHooks (mkHooks (isDrawing (hooks s)) admin signed false
                                  (fileFormat (hooks s))) s
    | admin => s
    end.
Proof.
  unfold step. cbn [handle]. destruct (currentUser (hooks s)) eqn:Hu.
  - now rewrite completeSignature_admin.
  - now rewrite completeSignature_client.
Qed.

(** C2. CompleteSignature.  The handler [completeSignature] is called by
    the Complete button and by nothing else, and the render shows that
    button only to the client while a signature is requested.  So the
    action changes the state only when the current user is the client and
    the status is requested: then the status becomes signed, the pad
    inactive and the user the admin.  In every other state, the client
    with a status not signed or signed included, it cannot take place and
    the whole engine, with status, user, pad flag and canvas, is as it
    was.  The canvas, the context and the pending images are untouched in
    either case. *)
Theorem completeSignature_through_button (s : Engine) :
  (currentUser (hooks s) = client ->
   signatureStatus (hooks s) = requested ->
   hooks (uiStep s CompleteSignature)
   = mkHooks (isDrawing (hooks s)) admin signed false (fileFormat (hooks s)))
  /\ (~ (currentUser (hooks s) = client /\ signatureStatus (hooks s) = requested) ->
      uiStep s CompleteSignature = s)
  /\ canvasRef (uiStep s CompleteSignature) = canvasRef s
  /\ contextRef (uiStep s CompleteSignature) = contextRef s
  /\ loading (uiStep s CompleteSignature) = loading s.
Proof.
  unfold uiStep. cbn [offered]. unfold completeButtonRendered.
  rewrite completeSignature_effect.
  destruct (currentUser (hooks s)) eqn:Hu, (signatureStatus (hooks s)) eqn:Hst;
    cbn [User_eqb SignatureStatus_eqb andb];
    repeat split; try reflexivity; try discriminate;
    intros Hno; exfalso; apply Hno; split; reflexivity.
Qed.

Lemma completeSignature_through_button_witness :
  hooks (uiStep (run (mount desk) [RequestSignature]) CompleteSignature)
  = mkHooks false admin signed false "png"
  /\ uiStep (run (mount desk) [ToggleRole]) CompleteSignature = run (mount desk) [ToggleRole].
Proof.
  split.
  - apply (proj1 (completeSignature_through_button (run (mount desk) [RequestSignature])));
      reflexivity.
  - apply (proj1 (proj2 (completeSignature_through_button (run (mount desk) [ToggleRole])))).
    vm_compute. intros [_ H]. discriminate H.
Defined.

(** The handler itself looks at the role only: the status is the
    render's matter. *)
Lemma completeSignature_checks_the_role (s : Engine) :
  handle (hooks s) CompleteSignature s
  = Ok tt (match currentUser (hooks s) with
           | client => setHooks (mkHooks (isDrawing (hooks s)) admin signed false
                                         (fileFormat (hooks s))) s
           | admin => s
           end) [].
Proof.
  cbn [handle]. destruct (currentUser (hooks s)) eqn:Hu.
  - now rewrite completeSignature_admin.
  - now rewrite completeSignature_client.
Qed.

(** The controls in the course of one signing: the request button is
    shown to the admin and disabled once the signature is signed, until a
    Clear resets the status. *)
Lemma request_button_after_signing :
  let s := run (mount desk) [RequestSignature; CompleteSignature] in
  requestButtonRendered (hooks s) = true
  /\ requestButtonDisabled (hooks s) = true
  /\ requestButtonDisabled (hooks (step s Clear)) = false
  /\ completeButtonRendered (hooks s) = false.
Proof. cbv zeta. repeat apply conj; vm_compute; reflexivity. Qed.

(* ------------------------------------------------------------------ *)
(** ** Export *)

Lemma downloadSignature_effect (h : Hooks) (s : Engine) :
  downloadSignature h s
  = Ok tt s
      match canvasRef s with
      | Some canvas =>
          [Download (toDataURL ("image/" ++ fileFormat h) canvas)
                    ("signature." ++ fileFormat h)]
      | None => []
      end.
Proof.
  unfold downloadSignature. unfold_handler. destruct (canvasRef s); reflexivity.
Qed.

(** C9. Export idempotence and framing.  In every state, whatever the
    status, an export returns normally and leaves the whole engine as it
    was: user, status, pad flag, drawing flag, canvas and pixels.  What it
    emits is the download of the canvas encoded in the component's
    format, so a second export right after the first emits the very same
    bytes under the same file name. *)
Theorem export_idempotent (s : Engine) :
  let first := handle (hooks s) Export s in
  let second := handle (hooks (engineOf first)) Export (engineOf first) in
  first = Ok tt s (outputOf first)
  /\ step s Export = s
  /\ outputOf second = outputOf first
  /\ outputOf first
     = match canvasRef s with
       | Some canvas =>
           [Download (toDataURL ("image/" ++ fileFormat (hooks s)) canvas)
                     ("signature." ++ fileFormat (hooks s))]
       | None => []
       end.
Proof.
  cbv zeta. unfold step. cbn [handle].
  rewrite !downloadSignature_effect. cbn [engineOf outputOf].
  rewrite ?downloadSignature_effect. cbn [outputOf]. auto.
Qed.

(* ------------------------------------------------------------------ *)
(** ** The coordinate mapper *)

(** C10. Coordinate mapper.  With the canvas in place, a mouse event maps
    to its client position minus the left and top of the canvas
    rectangle, and a touch event maps the same way from its first
    contact; the further contacts play no part.  The result is returned
    as it is, without an error and without clamping, wherever the raw
    position lies, and the engine is not changed. *)
Theorem getCoordinates_maps (s : Engine) (canvas : CanvasElement) (e : PointerEvent) :
  canvasRef s = Some canvas ->
  let rect := boundingClientRect canvas in
  (touches e = None ->
   getCoordinates e s
   = Ok (mkPoint (clientX e - left rect) (clientY e - top rect)) s [])
  /\ (forall t rest, touches e = Some (t :: rest) ->
      getCoordinates e s
      = Ok (mkPoint (touchClientX t - left rect) (touchClientY t - top rect)) s []).
Proof.
  intros Hc rect. unfold getCoordinates. unfold_handler. rewrite Hc.
  split.
  - intros ->. reflexivity.
  - intros t rest ->. reflexivity.
Qed.

Lemma getCoordinates_maps_witness :
  getCoordinates (mouseAt (-5) 400) (mount desk)
  = Ok (mkPoint (-5 - 10) (400 - 20)) (mount desk) []
  /\ getCoordinates (touchAt [mkTouch 31 42; mkTouch 7 8; mkTouch 500 9]) (mount desk)
     = Ok (mkPoint (31 - 10) (42 - 20)) (mount desk) [].
Proof.
  split.
  - apply (proj1 (getCoordinates_maps (mount desk)
                    (mkCanvas 300 150 300 150 (mkRect 10 20) [])
                    (mouseAt (-5) 400) eq_refl)).
    reflexivity.
  - apply (proj2 (getCoordinates_maps (mount desk)
                    (mkCanvas 300 150 300 150 (mkRect 10 20) [])
                    (touchAt [mkTouch 31 42; mkTouch 7 8; mkTouch 500 9]) eq_refl)
                 (mkTouch 31 42) [mkTouch 7 8; mkTouch 500 9]).
    reflexivity.
Defined.

(** A touch event whose list of contacts is empty has no first contact:
    reading it raises.  Only pen-down and pen-move call the mapper, and
    their events carry the contact that caused them. *)
Lemma getCoordinates_no_contact (s : Engine) (e : PointerEvent) :
  touches e = Some [] ->
  exists s' out, getCoordinates e s = TypeError s' out.
Proof.
  intros Ht. unfold getCoordinates. unfold_handler. rewrite Ht.
  destruct (canvasRef s); eauto.
Qed.

(* ------------------------------------------------------------------ *)
(** ** What no event disturbs *)

Ltac unfold_handlers :=
  unfold startDrawing, draw, stopDrawing, requestSignature, completeSignature,
         clearCanvas, toggleUser, downloadSignature, handleResize, onload,
         getCoordinates, onContext, paint,
         setIsDrawing, setCurrentUser, setSignatureStatus, setPadActive.

Lemma sameFormat_refl (s : Engine) : sameFormat s s.
Proof. reflexivity. Qed.

Lemma sameFormat_trans (s1 s2 s3 : Engine) :
  sameFormat s1 s2 -> sameFormat s2 s3 -> sameFormat s1 s3.
Proof. unfold sameFormat. congruence. Qed.

Lemma handle_sameFormat (h : Hooks) (ev : Event) : frames sameFormat (handle h ev).
Proof.
  destruct ev; cbn [handle]; unfold_handlers;
    frame_handler sameFormat_refl sameFormat_trans; reflexivity.
Qed.

Lemma staysMounted_refl (s : Engine) : staysMounted s s.
Proof. intros H. exact H. Qed.

Lemma staysMounted_trans (s1 s2 s3 : Engine) :
  staysMounted s1 s2 -> staysMounted s2 s3 -> staysMounted s1 s3.
Proof. unfold staysMounted. auto. Qed.

Lemma handle_staysMounted (h : Hooks) (ev : Event) : frames staysMounted (handle h ev).
Proof.
  destruct ev; cbn [handle]; unfold_handlers;
    frame_handler staysMounted_refl staysMounted_trans;
    intros ((? & Hc) & (? & Hx) & Hl); unfold mounted, relayout;
    unfold_handler; rewrite ?Hc, ?Hx; cbn; eauto.
Qed.

Lemma mount_mounted (l : Layout) : mounted (mount l).
Proof. unfold mounted. cbn. eauto. Qed.

Lemma run_mounted (evs : list Event) (s : Engine) : mounted s -> mounted (run s evs).
Proof.
  revert s. induction evs as [|ev evs IH]; intros s Hm; [exact Hm|].
  cbn [run fold_left]. apply IH. now apply (handle_staysMounted (hooks s) ev s).
Qed.

Lemma run_fileFormat (evs : list Event) (s : Engine) :
  fileFormat (hooks (run s evs)) = fileFormat (hooks s).
Proof.
  revert s. induction evs as [|ev evs IH]; intros s; [reflexivity|].
  cbn [run fold_left]. fold (run (step s ev) evs). rewrite IH.
  apply (handle_sameFormat (hooks s) ev s).
Qed.


(* ------------------------------------------------------------------ *)
(** ** Reading pixels *)

Lemma Qle_bool_false (a b : Q) : Qle_bool a b = false <-> b < a.
Proof.
  split.
  - intros H. apply Qnot_le_lt. intros Hle. apply Qle_bool_iff in Hle. congruence.
  - intros H. destruct (Qle_bool a b) eqn:E; [|reflexivity].
    apply Qle_bool_iff in E. exfalso. revert E. now apply Qlt_not_le.
Qed.

Lemma inBounds_spec (w h : Z) (p : Point) :
  inBounds w h p = true
  <-> 0 <= x p /\ x p < inject_Z w /\ 0 <= y p /\ y p < inject_Z h.
Proof.
  unfold inBounds. rewrite !andb_true_iff, !negb_true_iff, !Qle_bool_iff,
    !Qle_bool_false. tauto.
Qed.

Lemma between_intro (a b v : Q) : a <= v -> v <= b -> between a b v = true.
Proof.
  intros H1 H2. unfold between.
  apply Qle_bool_iff in H1. apply Qle_bool_iff in H2. now rewrite H1, H2.
Qed.

Lemma Qeq_bool_false_of_pos (a : Q) : 1 <= a -> Qeq_bool a 0 = false.
Proof.
  intros H. destruct (Qeq_bool a 0) eqn:E; [|reflexivity].
  apply Qeq_bool_iff in E. rewrite E in H. exfalso. revert H. apply Qlt_not_le.
  reflexivity.
Qed.

(** Under a scale of at least 1 in both directions, the rectangle
    [clearRect(0, 0, canvas.width, canvas.height)] covers the bitmap. *)
Lemma clearRect_blank (ctx : Context) (c : CanvasElement) :
  1 <= sx (transform ctx) ->
  1 <= sy (transform ctx) ->
  blank (clearRect 0 0 (inject_Z (width c)) (inject_Z (height c)) ctx c).
Proof.
  intros Hsx Hsy p. unfold clearRect, invertible.
  rewrite (Qeq_bool_false_of_pos _ Hsx), (Qeq_bool_false_of_pos _ Hsy).
  cbn [negb andb orb]. rewrite orb_false_r.
  unfold inkAt.
  destruct (inBounds (width c) (height c) p) eqn:Hin.
  2:{ destruct (Qeq_bool (inject_Z (width c)) 0 || Qeq_bool (inject_Z (height c)) 0);
      cbn; now rewrite Hin. }
  apply inBounds_spec in Hin. destruct Hin as (Hx0 & Hxw & Hy0 & Hyh).
  destruct (Qeq_bool (inject_Z (width c)) 0) eqn:Ew.
  { apply Qeq_bool_iff in Ew. rewrite Ew in Hxw. exfalso.
    apply (Qlt_not_le _ _ Hxw Hx0). }
  destruct (Qeq_bool (inject_Z (height c)) 0) eqn:Eh.
  { apply Qeq_bool_iff in Eh. rewrite Eh in Hyh. exfalso.
    apply (Qlt_not_le _ _ Hyh Hy0). }
  cbn [orb setBitmap width height bitmap inkLayers inkLayer apply x y x0 y0 x1 y1].
  assert (Hbox : inBox
            (mkBox (0 * sx (transform ctx)) (0 * sy (transform ctx))
                   ((0 + inject_Z (width c)) * sx (transform ctx))
                   ((0 + inject_Z (height c)) * sy (transform ctx))) p = true).
  { unfold inBox. cbn [x0 y0 x1 y1]. apply andb_true_iff. split.
    - apply between_intro; nra.
    - apply between_intro; nra. }
  rewrite Hbox. apply andb_false_r.
Qed.

(* ------------------------------------------------------------------ *)
(** ** Resize and the pending redraws *)

Lemma setupCanvas_effect (dpr : Q) (canvas : CanvasElement) (ctx : Context) :
  setupCanvas dpr (canvas, ctx)
  = (mkCanvas (toUnsignedLong (inject_Z (offsetWidth canvas) * ratioOf dpr))
              (toUnsignedLong (inject_Z (offsetHeight canvas) * ratioOf dpr))
              (offsetWidth canvas) (offsetHeight canvas) (boundingClientRect canvas) [],
     mkContext (mkTransform (1 * ratioOf dpr) (1 * ratioOf dpr)) [] round "#000" 2).
Proof. reflexivity. Qed.

(** A resize on the mounted component: the data URL of the canvas as it
    is joins the pending images, behind those still pending, and the
    canvas and its context are set up again for the new layout. *)
Lemma resize_effect (s : Engine) (l : Layout) (canvas : CanvasElement) (ctx : Context) :
  canvasRef s = Some canvas ->
  contextRef s = Some ctx ->
  listening s = true ->
  handle (hooks s) (Resize l) s
  = Ok tt
      (mkEngine (hooks s)
         (Some (fst (setupCanvas (layoutPixelRatio l) (laidOut l canvas, ctx))))
         (Some (snd (setupCanvas (layoutPixelRatio l) (laidOut l canvas, ctx))))
         (layoutPixelRatio l) true
         (loading s ++ [toDataURL "image/png" canvas]))
      [].
Proof.
  destruct s as [hk c x dpr li lo]. cbn. intros -> -> ->. reflexivity.
Qed.

(** The decode of a pending image completes: the image leaves the list
    and is drawn at user-space (0, 0), over whatever the canvas holds. *)
Lemma imageLoad_effect (s : Engine) (k : nat) (d : DataURL) (img : Image)
      (canvas : CanvasElement) (ctx : Context) :
  nth_error (loading s) k = Some d ->
  decode d = Some img ->
  canvasRef s = Some canvas ->
  contextRef s = Some ctx ->
  handle (hooks s) (ImageLoad k) s
  = Ok tt
      (mkEngine (hooks s) (Some (drawImage img 0 0 ctx canvas)) (Some ctx)
                (devicePixelRatio s) (listening s) (removeNth k (loading s)))
      [].
Proof.
  destruct s as [hk c x dpr li lo]. cbn. intros Hn Hd -> ->.
  unfold_handler. rewrite Hn. unfold onload. unfold_handler. rewrite Hd.
  reflexivity.
Qed.

Lemma keepsScale_refl (s : Engine) : keepsScale s s.
Proof. intros H. exact H. Qed.

Lemma keepsScale_trans (s1 s2 s3 : Engine) :
  keepsScale s1 s2 -> keepsScale s2 s3 -> keepsScale s1 s3.
Proof. unfold keepsScale. auto. Qed.

Lemma ratioOf_at_least_one (l : Layout) :
  notZoomedOut l -> 1 <= 1 * ratioOf (layoutPixelRatio l).
Proof.
  unfold notZoomedOut, ratioOf. intros [H0|H1].
  - apply Qeq_bool_iff in H0. rewrite H0. discriminate.
  - destruct (Qeq_bool (layoutPixelRatio l) 0); [discriminate|]. now rewrite Qmult_1_l.
Qed.

Lemma handle_keepsScale (h : Hooks) (ev : Event) :
  resizesNotZoomedOut ev -> frames keepsScale (handle h ev).
Proof.
  intros Hev. destruct ev; cbn [handle];
    unfold startDrawing, draw, stopDrawing, requestSignature, completeSignature,
           clearCanvas, toggleUser, downloadSignature, onload, getCoordinates,
           setIsDrawing, setCurrentUser, setSignatureStatus, setPadActive.
  14:{ (* Resize *)
    intros s (ctx & Hx & Hs).
    destruct s as [hk [c|] x dpr [|] lo]; cbn in Hx; subst x;
      cbn [resizesNotZoomedOut] in Hev;
      unfold handleResize; unfold_handler; unfold relayout; cbn;
      try (exists ctx; auto; fail).
    eexists. split; [reflexivity|]. cbn.
    split; now apply ratioOf_at_least_one. }
  all: frame_handler keepsScale_refl keepsScale_trans;
    intros (? & Hx & Hs); unfold scaleAtLeastOne, relayout;
    unfold_handler; rewrite ?Hx; cbn; eauto.
  all: match goal with
       | H1 : contextRef ?s = Some ?a, H2 : contextRef ?s = Some ?b |- _ =>
           rewrite H1 in H2; inversion H2; subst
       end;
    eexists; (split; [reflexivity|]);
    unfold beginPath, moveTo, lineTo, closePath, setPath; cbn;
    repeat match goal with
           | |- context [match ?v with _ => _ end] => destruct v
           end; cbn; exact Hs.
Qed.

Lemma mount_scaleAtLeastOne (l : Layout) : notZoomedOut l -> scaleAtLeastOne (mount l).
Proof.
  intros Hl. unfold scaleAtLeastOne. cbn. eexists. split; [reflexivity|].
  cbn. split; now apply ratioOf_at_least_one.
Qed.

Lemma run_scaleAtLeastOne (evs : list Event) (s : Engine) :
  Forall resizesNotZoomedOut evs -> scaleAtLeastOne s -> scaleAtLeastOne (run s evs).
Proof.
  revert s. induction evs as [|ev evs IH]; intros s Hall Hs; [exact Hs|].
  inversion Hall as [|? ? Hev Hrest]; subst.
  cbn [run fold_left]. apply IH; [exact Hrest|].
  now apply (handle_keepsScale (hooks s) ev Hev s).
Qed.

(* ------------------------------------------------------------------ *)
(** ** Clear *)

(** Clearing a rectangle never adds ink. *)
Lemma clearRect_no_new_ink (rx ry rw rh : Q) (ctx : Context) (c : CanvasElement) (p : Point) :
  inkAt (clearRect rx ry rw rh ctx c) p = true -> inkAt c p = true.
Proof.
  unfold clearRect.
  destruct (Qeq_bool rw 0 || Qeq_bool rh 0 || negb (invertible (transform ctx)));
    [auto|].
  unfold inkAt. cbn [setBitmap width height bitmap inkLayers inkLayer].
  destruct (inBounds (width c) (height c) p); [|discriminate]. cbn [andb].
  destruct (inBox _ p); [discriminate|auto].
Qed.

Lemma clearRect_keeps_blank (rx ry rw rh : Q) (ctx : Context) (c : CanvasElement) :
  blank c -> blank (clearRect rx ry rw rh ctx c).
Proof.
  intros Hb p. specialize (Hb p).
  destruct (inkAt (clearRect rx ry rw rh ctx c) p) eqn:E; [|reflexivity].
  apply clearRect_no_new_ink in E. congruence.
Qed.

(** What Clear does to the hooks of a mounted component: a signed status
    becomes not signed, and nothing else is written. *)
Lemma clear_effect (s : Engine) (canvas : CanvasElement) (ctx : Context) :
  canvasRef s = Some canvas ->
  contextRef s = Some ctx ->
  step s Clear
  = mkEngine
      (mkHooks (isDrawing (hooks s)) (currentUser (hooks s))
               (match signatureStatus (hooks s) with
                | signed => not_signed
                | st => st
                end)
               (padActive (hooks s)) (fileFormat (hooks s)))
      (Some (clearRect 0 0 (inject_Z (width canvas)) (inject_Z (height canvas)) ctx canvas))
      (Some ctx) (devicePixelRatio s) (listening s) (loading s).
Proof.
  intros Hc Hx. unfold step. cbn [handle].
  rewrite (clearCanvas_mounted _ s canvas ctx Hc Hx).
  destruct s as [[dr u st pa ff] c x dpr li lo]. cbn in *. subst.
  destruct st; reflexivity.
Qed.

(** Where the pixel ratio has never been below 1, Clear does what its
    name says, for either role and any status: the whole bitmap is blank
    afterwards; a signed status becomes not signed, a status not signed
    or requested stays; role, pad flag and drawing flag stay. *)
Lemma clear_blanks_unless_zoomed_out (l : Layout) (evs : list Event) :
  notZoomedOut l ->
  Forall resizesNotZoomedOut evs ->
  let s := run (mount l) evs in
  (exists canvas, canvasRef (step s Clear) = Some canvas /\ blank canvas)
  /\ signatureStatus (hooks (step s Clear))
     = (match signatureStatus (hooks s) with signed => not_signed | st => st end)
  /\ currentUser (hooks (step s Clear)) = currentUser (hooks s)
  /\ padActive (hooks (step s Clear)) = padActive (hooks s)
  /\ isDrawing (hooks (step s Clear)) = isDrawing (hooks s).
Proof.
  intros Hl Hevs s.
  destruct (run_mounted evs (mount l) (mount_mounted l)) as ((canvas & Hc) & _ & _).
  destruct (run_scaleAtLeastOne evs (mount l) Hevs (mount_scaleAtLeastOne l Hl))
    as (ctx & Hx & Hsx & Hsy).
  change (canvasRef s = Some canvas) in Hc. change (contextRef s = Some ctx) in Hx.
  rewrite (clear_effect s canvas ctx Hc Hx). cbn.
  repeat split; auto.
  eexists. split; [reflexivity|]. now apply clearRect_blank.
Qed.

(** C6 on the code.  In a window zoomed out to 50% the context scales by
    one half, and [clearRect(0, 0, canvas.width, canvas.height)] reaches
    only the upper left quarter of the bitmap.  The client's stroke near
    the lower right corner survives a Clear: the device pixel (125, 50)
    is inked before it and after it. *)
Theorem clear_leaves_ink_when_zoomed_out :
  let s := run (mount zoomedOut) (signedStroke 250 100 260 110) in
  exists before after,
    canvasRef s = Some before
    /\ canvasRef (step s Clear) = Some after
    /\ width before = 150%Z /\ height before = 75%Z
    /\ inkAt before (mkPoint 125 50) = true
    /\ inkAt after (mkPoint 125 50) = true
    /\ ~ blank after.
Proof.
  cbv zeta. eexists. eexists.
  split; [vm_compute; reflexivity|].
  split; [vm_compute; reflexivity|].
  split; [reflexivity|]. split; [reflexivity|].
  split; [vm_compute; reflexivity|].
  split; [vm_compute; reflexivity|].
  intros Hb. specialize (Hb (mkPoint 125 50)). vm_compute in Hb. discriminate Hb.
Qed.

(* ------------------------------------------------------------------ *)
(** ** Request *)

(** What a request does on a mounted component: nothing for the client;
    for the admin, whatever the status, the canvas is cleared as by
    [clearCanvas] and the status, the pad flag and the user are set. *)
Lemma request_effect (s : Engine) (canvas : CanvasElement) (ctx : Context) :
  canvasRef s = Some canvas ->
  contextRef s = Some ctx ->
  step s RequestSignature
  = match currentUser (hooks s) with
    | client => s
    | admin =>
        mkEngine
          (mkHooks (isDrawing (hooks s)) client requested true (fileFormat (hooks s)))
          (Some (clearRect 0 0 (inject_Z (width canvas)) (inject_Z (height canvas))
                           ctx canvas))
          (Some ctx) (devicePixelRatio s) (listening s) (loading s)
    end.
Proof.
  intros Hc Hx. unfold step. cbn [handle].
  destruct (currentUser (hooks s)) eqn:Hu.
  - rewrite (proj1 (requestSignature_admin _ s Hu)).
    rewrite (clearCanvas_mounted _ s canvas ctx Hc Hx).
    destruct s as [hk c x dpr li lo]. cbn in *. subst.
    destruct (SignatureStatus_eqb (signatureStatus hk) signed); reflexivity.
  - now rewrite requestSignature_client.
Qed.

(** The handler itself looks at the role only, as [completeSignature]
    does: the status is the matter of the button, which is disabled once
    signed.  Where the pixel ratio has never been below 1 the handler,
    run for the admin, blanks the surface and sets requested, active,
    client; run for the client it does nothing. *)
Lemma request_blanks_unless_zoomed_out (l : Layout) (evs : list Event) :
  notZoomedOut l ->
  Forall resizesNotZoomedOut evs ->
  let s := run (mount l) evs in
  (currentUser (hooks s) = admin ->
   (exists canvas, canvasRef (step s RequestSignature) = Some canvas /\ blank canvas)
   /\ hooks (step s RequestSignature)
      = mkHooks (isDrawing (hooks s)) client requested true (fileFormat (hooks s)))
  /\ (currentUser (hooks s) = client -> step s RequestSignature = s).
Proof.
  intros Hl Hevs s.
  destruct (run_mounted evs (mount l) (mount_mounted l)) as ((canvas & Hc) & _ & _).
  destruct (run_scaleAtLeastOne evs (mount l) Hevs (mount_scaleAtLeastOne l Hl))
    as (ctx & Hx & Hsx & Hsy).
  change (canvasRef s = Some canvas) in Hc. change (contextRef s = Some ctx) in Hx.
  rewrite (request_effect s canvas ctx Hc Hx).
  split; intros ->; [|reflexivity]. cbn. split; [|reflexivity].
  eexists. split; [reflexivity|]. now apply clearRect_blank.
Qed.

(** C3, as the code has it.  RequestSignature is the click on the
    request button, which the render shows to the admin only and disables
    once the status is signed.  Where it can be clicked (any state of the
    mounted component with the admin active and a status not signed) it
    sets the status to requested, the pad active and the user to the
    client, and clears the canvas as Clear does: to blank wherever no
    pixel ratio below 1 has been in force.  For the client, and for the
    admin once signed, it cannot take place and the engine is as it was:
    a new request after a signed state needs a Clear first.  Hence
    request, complete, request from the mounted component ends signed,
    with the admin active on an inactive pad; request, complete, clear,
    request ends requested, with the client active on an active pad and a
    blank canvas. *)
Theorem requestSignature_through_button (l : Layout) (evs : list Event) :
  let s := run (mount l) evs in
  (currentUser (hooks s) = admin ->
   signatureStatus (hooks s) <> signed ->
   hooks (uiStep s RequestSignature)
   = mkHooks (isDrawing (hooks s)) client requested true (fileFormat (hooks s))
   /\ (notZoomedOut l ->
       Forall resizesNotZoomedOut evs ->
       exists canvas, canvasRef (uiStep s RequestSignature) = Some canvas /\ blank canvas))
  /\ (currentUser (hooks s) = client \/ signatureStatus (hooks s) = signed ->
      uiStep s RequestSignature = s)
  /\ hooks (uiRun (mount l) [RequestSignature; CompleteSignature; RequestSignature])
     = mkHooks false admin signed false "png"
  /\ hooks (uiRun (mount l) [RequestSignature; CompleteSignature; Clear; RequestSignature])
     = mkHooks false client requested true "png"
  /\ exists canvas,
       canvasRef (uiRun (mount l)
                    [RequestSignature; CompleteSignature; Clear; RequestSignature])
       = Some canvas
       /\ blank canvas.
Proof.
  intros s. split; [|split; [|split; [|split]]].
  - intros Hu Hns.
    assert (Hoff : offered (hooks s) RequestSignature = true).
    { cbn [offered]. unfold requestButtonRendered, requestButtonDisabled. rewrite Hu.
      destruct (signatureStatus (hooks s)); try reflexivity. now elim Hns. }
    unfold uiStep. rewrite Hoff.
    destruct (run_mounted evs (mount l) (mount_mounted l)) as ((canvas & Hc) & (ctx & Hx) & _).
    change (canvasRef s = Some canvas) in Hc. change (contextRef s = Some ctx) in Hx.
    rewrite (request_effect s canvas ctx Hc Hx), Hu. cbn [hooks canvasRef].
    split; [reflexivity|]. intros Hl Hevs.
    destruct (run_scaleAtLeastOne evs (mount l) Hevs (mount_scaleAtLeastOne l Hl))
      as (ctx' & Hx' & Hsx & Hsy).
    change (contextRef s = Some ctx') in Hx'. rewrite Hx in Hx'. inversion Hx'; subst ctx'.
    eexists. split; [reflexivity|]. now apply clearRect_blank.
  - intros Hno. unfold uiStep. cbn [offered].
    unfold requestButtonRendered, requestButtonDisabled.
    destruct Hno as [-> | ->]; [reflexivity|].
    cbn. now rewrite andb_false_r.
  - reflexivity.
  - reflexivity.
  - eexists. split; [reflexivity|].
    do 3 apply clearRect_keeps_blank.
    intros p. unfold inkAt. cbn. apply andb_false_r.
Qed.

Lemma requestSignature_through_button_witness :
  hooks (uiStep (run (mount desk) [RequestSignature; CompleteSignature; Clear])
                RequestSignature)
  = mkHooks false client requested true "png"
  /\ uiStep (run (mount desk) [RequestSignature; CompleteSignature]) RequestSignature
     = run (mount desk) [RequestSignature; CompleteSignature]
  /\ exists canvas,
       canvasRef (uiStep (run (mount desk) [RequestSignature; CompleteSignature; Clear])
                         RequestSignature) = Some canvas
       /\ blank canvas.
Proof.
  pose proof (requestSignature_through_button desk
                [RequestSignature; CompleteSignature; Clear]) as H1.
  pose proof (requestSignature_through_button desk
                [RequestSignature; CompleteSignature]) as H2.
  cbv zeta in H1, H2.
  destruct H1 as (Ha & _). destruct H2 as (_ & Hb & _).
  assert (Hns : signatureStatus (hooks (run (mount desk)
                                          [RequestSignature; CompleteSignature; Clear]))
                <> signed) by (vm_compute; discriminate).
  destruct (Ha eq_refl Hns) as (Hh & Hblank).
  split; [exact Hh|]. split; [apply Hb; right; reflexivity|].
  apply Hblank.
  - right. vm_compute. discriminate.
  - repeat constructor.
Defined.

(** C3 as stated fails.  After request and complete the status is signed
    and the admin is active: the request button is there but disabled, so
    the re-request cannot take place, and request, complete, request ends
    signed with the admin active, neither requested nor with the client
    active. *)
Lemma request_is_disabled_once_signed :
  let s := uiRun (mount desk) [RequestSignature; CompleteSignature] in
  currentUser (hooks s) = admin
  /\ signatureStatus (hooks s) = signed
  /\ requestButtonRendered (hooks s) = true
  /\ requestButtonDisabled (hooks s) = true
  /\ offered (hooks s) RequestSignature = false
  /\ uiStep s RequestSignature = s
  /\ hooks (uiRun (mount desk) [RequestSignature; CompleteSignature; RequestSignature])
     = mkHooks false admin signed false "png".
Proof. cbv zeta. repeat apply conj; vm_compute; reflexivity. Qed.

(** The slip of Clear shows through the request as well.  In a window
    zoomed out to 50% the client draws near the lower right corner and
    completes, the admin clears and requests anew: the device pixel
    (125, 50) is still inked after the request. *)
Example request_after_clear_when_zoomed_out :
  inkOf (uiRun (mount zoomedOut)
           (signedStroke 250 100 260 110
            ++ [CompleteSignature; Clear; RequestSignature]))
        (mkPoint 125 50) = true
  /\ hooks (uiRun (mount zoomedOut)
              (signedStroke 250 100 260 110
               ++ [CompleteSignature; Clear; RequestSignature]))
     = mkHooks false client requested true "png".
Proof. split; vm_compute; reflexivity. Qed.

(* ------------------------------------------------------------------ *)
(** ** The redraw after a resize *)

Lemma Qdiv_unit (a : Q) : a / (1 * 1) = a.
Proof.
  destruct a as [n d]. unfold Qdiv, Qmult, Qinv. cbn.
  now rewrite Z.mul_1_r, Pos.mul_1_r.
Qed.

Lemma Qminus_zero (a : Q) : a - 0 = a.
Proof.
  destruct a as [n d]. unfold Qminus, Qplus, Qopp. cbn.
  now rewrite Z.mul_1_r, Z.add_0_r, Pos.mul_1_r.
Qed.

(** An image layer, read: the image's own pixels where the point falls
    into it, what lies below elsewhere and where the image is clear. *)
Lemma inkLayers_picture (iw ih : Z) (pix : Bitmap) (t : Transform) (dx dy : Q)
      (below : Bitmap) (p : Point) :
  inkLayers (Picture iw ih pix t dx dy :: below) p
  = (invertible t
     && (let q := mkPoint (x (unapply t p) - dx) (y (unapply t p) - dy) in
         inBounds iw ih q && inkLayers pix q))
    || inkLayers below p.
Proof. reflexivity. Qed.

(** Drawing an image never removes ink. *)
Lemma drawImage_keeps_ink (img : Image) (dx dy : Q) (ctx : Context)
      (c : CanvasElement) (p : Point) :
  inkAt c p = true -> inkAt (drawImage img dx dy ctx c) p = true.
Proof.
  unfold inkAt, drawImage. cbn [setBitmap width height bitmap].
  rewrite inkLayers_picture. intros H. apply andb_true_iff in H. destruct H as [-> ->].
  now rewrite orb_true_r.
Qed.

(** C4, as the code has it.  On a resize of the mounted component with no
    redraw pending and a canvas that has pixels, the bitmap is captured
    as a PNG at its backing size before the canvas is set up again, which
    empties it.  When the decode completes, the image is drawn with its
    corner at logical (0, 0) at its natural size, the backing size of the
    canvas before the resize, whatever the new size is.  At a pixel ratio
    of 1 the new canvas therefore shows, at every one of its pixels,
    exactly what the canvas before showed at the same pixel. *)
Theorem resize_redraws_at_natural_size
        (s : Engine) (l : Layout) (canvas : CanvasElement) (ctx : Context) :
  canvasRef s = Some canvas ->
  contextRef s = Some ctx ->
  listening s = true ->
  loading s = [] ->
  width canvas <> 0%Z ->
  height canvas <> 0%Z ->
  let s1 := step s (Resize l) in
  let s2 := step s1 (ImageLoad 0) in
  let r := ratioOf (layoutPixelRatio l) in
  let w' := toUnsignedLong (inject_Z (layoutWidth l) * r) in
  let h' := toUnsignedLong (inject_Z (layoutHeight l) * r) in
  let redrawn :=
    mkCanvas w' h' (layoutWidth l) (layoutHeight l) (layoutRect l)
      [Picture (width canvas) (height canvas) (bitmap canvas)
               (mkTransform (1 * r) (1 * r)) 0 0] in
  loading s1 = [Encoded "image/png" (width canvas) (height canvas) (bitmap canvas)]
  /\ canvasRef s1
     = Some (mkCanvas w' h' (layoutWidth l) (layoutHeight l) (layoutRect l) [])
  /\ canvasRef s2 = Some redrawn
  /\ loading s2 = []
  /\ (layoutPixelRatio l = 1 ->
      forall p, inkAt redrawn p = inBounds w' h' p && inkAt canvas p).
Proof.
  intros Hc Hx Hl Hlo Hw Hh s1 s2 r w' h' redrawn.
  assert (Hcap : toDataURL "image/png" canvas
                 = Encoded "image/png" (width canvas) (height canvas) (bitmap canvas)).
  { unfold toDataURL. apply Z.eqb_neq in Hw. apply Z.eqb_neq in Hh.
    now rewrite Hw, Hh. }
  assert (Hs1 : s1 = mkEngine (hooks s)
                       (Some (mkCanvas w' h' (layoutWidth l) (layoutHeight l)
                                       (layoutRect l) []))
                       (Some (mkContext (mkTransform (1 * r) (1 * r)) [] round "#000" 2))
                       (layoutPixelRatio l) true
                       [Encoded "image/png" (width canvas) (height canvas) (bitmap canvas)]).
  { unfold s1, step. rewrite (resize_effect s l canvas ctx Hc Hx Hl).
    rewrite setupCanvas_effect, Hlo, Hcap. reflexivity. }
  assert (Hs2 : s2 = mkEngine (hooks s) (Some redrawn)
                       (Some (mkContext (mkTransform (1 * r) (1 * r)) [] round "#000" 2))
                       (layoutPixelRatio l) true []).
  { unfold s2, step. rewrite Hs1. reflexivity. }
  rewrite Hs1, Hs2. cbn [loading canvasRef].
  repeat split.
  intros Hr p. unfold inkAt, redrawn. cbn [width height bitmap].
  rewrite inkLayers_picture. unfold r, ratioOf. rewrite Hr.
  change (if Qeq_bool 1 0 then 1%Q else 1%Q) with 1%Q.
  unfold unapply, invertible. cbn [sx sy x y inkLayers].
  rewrite !Qdiv_unit, !Qminus_zero, orb_false_r.
  destruct p as [px py]. reflexivity.
Qed.

Lemma resize_redraws_at_natural_size_witness :
  loading (step (run (mount desk) (signedStroke 100 50 200 100)) (Resize shrunk))
  = [Encoded "image/png" 300 150 (bitmap strokedCanvas)]
  /\ inkAt shrunkCanvas (mkPoint 100 50)
     = inBounds 150 75 (mkPoint 100 50) && inkAt strokedCanvas (mkPoint 100 50).
Proof.
  assert (Hc : canvasRef (run (mount desk) (signedStroke 100 50 200 100))
               = Some strokedCanvas) by (vm_compute; reflexivity).
  assert (Hx : contextRef (run (mount desk) (signedStroke 100 50 200 100))
               = Some strokedContext) by (vm_compute; reflexivity).
  assert (Hl : listening (run (mount desk) (signedStroke 100 50 200 100)) = true)
    by (vm_compute; reflexivity).
  assert (Hlo : loading (run (mount desk) (signedStroke 100 50 200 100)) = [])
    by (vm_compute; reflexivity).
  assert (Hw : width strokedCanvas <> 0%Z) by (vm_compute; discriminate).
  assert (Hh : height strokedCanvas <> 0%Z) by (vm_compute; discriminate).
  destruct (resize_redraws_at_natural_size _ shrunk _ _ Hc Hx Hl Hlo Hw Hh)
    as (H1 & _ & _ & _ & H5).
  split; [exact H1|]. exact (H5 eq_refl (mkPoint 100 50)).
Defined.

(** C4 as stated fails.  The canvas of 300 by 150 carries ink at
    (100, 50); after the resize to 150 by 75 and the completed redraw the
    image lies there at its natural 300 by 150, not stretched to the new
    size: the corresponding place (50, 25) of the resized surface shows no
    ink, and the ink is where it was, at (100, 50). *)
Lemma resize_does_not_stretch :
  let s := run (mount desk) (signedStroke 100 50 200 100) in
  let s' := run s [Resize shrunk; ImageLoad 0] in
  canvasRef s = Some strokedCanvas
  /\ canvasRef s' = Some shrunkCanvas
  /\ loading s' = []
  /\ inkAt strokedCanvas (mkPoint 100 50) = true
  /\ x (correspondingPosition strokedCanvas shrunkCanvas (mkPoint 100 50)) == 50
  /\ y (correspondingPosition strokedCanvas shrunkCanvas (mkPoint 100 50)) == 25
  /\ inkAt shrunkCanvas (correspondingPosition strokedCanvas shrunkCanvas (mkPoint 100 50))
     = false
  /\ inkAt shrunkCanvas (mkPoint 100 50) = true.
Proof.
  cbv zeta. repeat apply conj; vm_compute; reflexivity.
Qed.

(* ------------------------------------------------------------------ *)
(** ** Two resizes in a row *)

(** C5, as the code has it.  The engine keeps no generation of its
    resizes, only the list of images still to load.  A resize adds its
    capture behind the ones pending and drops none of them; and whenever
    the decode of a pending image completes, first or last, that image is
    drawn on top of what the canvas holds at that moment, strokes drawn
    since included.  Drawing composites source-over: it adds the ink of
    the image, and every pixel inked before is inked after. *)
Theorem pending_redraw_is_always_painted
        (s : Engine) (k : nat) (d : DataURL) (img : Image)
        (canvas : CanvasElement) (ctx : Context) :
  nth_error (loading s) k = Some d ->
  decode d = Some img ->
  canvasRef s = Some canvas ->
  contextRef s = Some ctx ->
  listening s = true ->
  let s' := step s (ImageLoad k) in
  canvasRef s' = Some (drawImage img 0 0 ctx canvas)
  /\ bitmap (drawImage img 0 0 ctx canvas)
     = Picture (naturalWidth img) (naturalHeight img) (pixels img) (transform ctx) 0 0
         :: bitmap canvas
  /\ loading s' = removeNth k (loading s)
  /\ hooks s' = hooks s
  /\ (forall p, inkAt canvas p = true -> inkAt (drawImage img 0 0 ctx canvas) p = true)
  /\ (forall l,
        loading (step s (Resize l)) = (loading s ++ [toDataURL "image/png" canvas])%list).
Proof.
  intros Hn Hd Hc Hx Hl s'.
  assert (Hresize : forall l, loading (step s (Resize l))
                              = (loading s ++ [toDataURL "image/png" canvas])%list).
  { intros l. unfold step. now rewrite (resize_effect s l canvas ctx Hc Hx Hl). }
  unfold s', step at 1 2 3.
  rewrite (imageLoad_effect s k d img canvas ctx Hn Hd Hc Hx).
  cbn [engineOf canvasRef loading hooks].
  repeat split; try exact Hresize.
  intros p. apply drawImage_keeps_ink.
Qed.

Lemma pending_redraw_is_always_painted_witness :
  canvasRef (step (run (mount desk) resizeRace) (ImageLoad 0))
  = Some (drawImage staleImage 0 0 racedContext racedCanvas)
  /\ loading (step (run (mount desk) resizeRace) (ImageLoad 0))
     = removeNth 0 (loading (run (mount desk) resizeRace)).
Proof.
  assert (Hn : nth_error (loading (run (mount desk) resizeRace)) 0
               = Some (Encoded "image/png" 300 150 firstInk))
    by (vm_compute; reflexivity).
  assert (Hd : decode (Encoded "image/png" 300 150 firstInk) = Some staleImage)
    by (vm_compute; reflexivity).
  assert (Hc : canvasRef (run (mount desk) resizeRace) = Some racedCanvas)
    by (vm_compute; reflexivity).
  assert (Hx : contextRef (run (mount desk) resizeRace) = Some racedContext)
    by (vm_compute; reflexivity).
  assert (Hl : listening (run (mount desk) resizeRace) = true)
    by (vm_compute; reflexivity).
  destruct (pending_redraw_is_always_painted _ 0 _ _ _ _ Hn Hd Hc Hx Hl)
    as (H1 & _ & H3 & _).
  split; [exact H1|exact H3].
Defined.

(** C5 as stated fails.  A stroke, a first resize, a second resize before
    the first redraw, then a stroke across the place of the old one: both
    redraws are pending.  When the decode of the first resize's image
    completes it is not discarded.  It is drawn on top of the new stroke:
    it lands on the stroke's pixel (30, 30), and the pixel (12, 12), clear
    before, shows the old ink again. *)
Lemma stale_redraw_paints_over_stroke :
  let s := run (mount desk) resizeRace in
  let s' := step s (ImageLoad 0) in
  let stale := Picture 300 150 firstInk (mkTransform 1 1) 0 0 in
  loading s = [Encoded "image/png" 300 150 firstInk; Encoded "image/png" 300 150 []]
  /\ canvasRef s = Some racedCanvas
  /\ bitmap racedCanvas = [crossingStroke]
  /\ canvasRef s' = Some (setBitmap [stale; crossingStroke] racedCanvas)
  /\ canvasRef s' <> canvasRef s
  /\ inkAt racedCanvas (mkPoint 30 30) = true
  /\ inkLayer stale (fun _ => false) (mkPoint 30 30) = true
  /\ inkAt racedCanvas (mkPoint 12 12) = false
  /\ inkAt (setBitmap [stale; crossingStroke] racedCanvas) (mkPoint 12 12) = true.
Proof.
  cbv zeta. repeat apply conj; vm_compute; try reflexivity. discriminate.
Qed.

(* ================================================================== *)
(** * Further properties of the component *)

(** ** Lifting the pen *)

(** Lifting the pen, or leaving the canvas, always ends the stroke: the
    handler asks for no permission, so whoever the current user is and
    whatever the pad flag says, the drawing flag is false afterwards.
    The canvas, the user, the status and the pad flag are untouched. *)
Theorem penUp_ends_stroke (s : Engine) (ev : Event) :
  isPenUp ev = true ->
  isDrawing (hooks (step s ev)) = false
  /\ canvasRef (step s ev) = canvasRef s
  /\ sameWorkflow s (step s ev).
Proof.
  intros Hup.
  assert (Hst : exists e, handle (hooks s) ev = stopDrawing (hooks s) e).
  { destruct ev as [e|e|e|e|e|e|e| | | | | |l|l|k]; try discriminate Hup;
      exists e; reflexivity. }
  destruct Hst as (e & Hst). unfold step. rewrite Hst.
  split; [|split].
  - unfold stopDrawing. destruct (isDrawing (hooks s)) eqn:Hd; [|exact Hd].
    unfold_handler. destruct (contextRef s); reflexivity.
  - apply stopDrawing_canvas.
  - unfold stopDrawing. destruct (isDrawing (hooks s)); [|apply sameWorkflow_refl].
    unfold_handler. destruct (contextRef s); unfold sameWorkflow; cbn; auto.
Qed.

Lemma penUp_ends_stroke_witness :
  isDrawing (hooks (run (mount desk)
                      [RequestSignature; MouseDown (mouseAt 20 30); ToggleRole])) = true
  /\ isDrawing (hooks (step (run (mount desk)
                              [RequestSignature; MouseDown (mouseAt 20 30); ToggleRole])
                            (MouseLeave (mouseAt 0 0)))) = false.
Proof.
  split; [reflexivity|].
  apply (penUp_ends_stroke
           (run (mount desk) [RequestSignature; MouseDown (mouseAt 20 30); ToggleRole])
           (MouseLeave (mouseAt 0 0))).
  reflexivity.
Defined.

(** ** What a pointer event emits *)

(** A pointer handler prevents the default action of its event exactly
    when it gets past its guard, and it emits nothing else: a pen-down
    while drawing is allowed, a move while a stroke is open and drawing
    is allowed, a pen-up while a stroke is open.  An ignored event keeps
    its default action. *)
Theorem preventDefault_iff_acted (s : Engine) (ev : Event) :
  isPointer ev = true ->
  outputOf (handle (hooks s) ev s)
  = if acted (hooks s) ev then [PreventDefault] else [].
Proof.
  intros Hp.
  destruct s as [h c x dpr li lo].
  destruct ev; try discriminate Hp; cbn [handle acted hooks];
    unfold startDrawing, draw, stopDrawing, getCoordinates;
    destruct (isDrawing h); destruct (canDraw h); cbn [negb orb andb];
    try reflexivity; unfold_handler;
    destruct c as [c|]; destruct x as [x|]; cbn; try reflexivity;
    destruct (touches e) as [[|t ts]|]; reflexivity.
Qed.

Lemma preventDefault_iff_acted_witness :
  outputOf (handle (hooks (run (mount desk) [RequestSignature]))
                   (TouchStart (touchAt [mkTouch 31 42]))
                   (run (mount desk) [RequestSignature])) = [PreventDefault]
  /\ outputOf (handle (hooks (mount desk)) (TouchStart (touchAt [mkTouch 31 42]))
                      (mount desk)) = [].
Proof.
  split.
  - apply (preventDefault_iff_acted (run (mount desk) [RequestSignature])
             (TouchStart (touchAt [mkTouch 31 42]))).
    reflexivity.
  - apply (preventDefault_iff_acted (mount desk) (TouchStart (touchAt [mkTouch 31 42]))).
    reflexivity.
Defined.

(** ** The role toggle *)

(** Toggling the role twice gives back the very same engine, in any
    state. *)
Theorem toggle_twice (s : Engine) :
  run s [ToggleRole; ToggleRole] = s.
Proof.
  destruct s as [[dr u st pa ff] c x dpr li lo].
  destruct u; reflexivity.
Qed.

(** ** The workflow, further *)

Lemma step_keeps_requestedOnlyWhileActive (s : Engine) (ev : Event) :
  requestedOnlyWhileActive (hooks s) ->
  requestedOnlyWhileActive (hooks (step s ev)).
Proof.
  unfold requestedOnlyWhileActive. intros Hinv.
  pose proof (handle_sameWorkflow (hooks s) ev) as Hf.
  destruct ev;
    try (destruct (Hf s) as (Hu & Hst & Hp & _); unfold step;
         rewrite Hst, Hp; exact Hinv);
    clear Hf; unfold step; cbn [handle].
  - destruct (currentUser (hooks s)) eqn:Hu.
    + rewrite (proj1 (requestSignature_admin _ s Hu)). reflexivity.
    + rewrite requestSignature_client by assumption. exact Hinv.
  - destruct (currentUser (hooks s)) eqn:Hu.
    + rewrite completeSignature_admin by assumption. exact Hinv.
    + rewrite completeSignature_client by assumption. cbn. discriminate.
  - destruct (clearCanvas_hooks (hooks s) s) as [-> | [Hst ->]]; [exact Hinv|].
    cbn. discriminate.
  - cbn. exact Hinv.
Qed.

Lemma run_keeps_requestedOnlyWhileActive (evs : list Event) (s : Engine) :
  requestedOnlyWhileActive (hooks s) ->
  requestedOnlyWhileActive (hooks (run s evs)).
Proof.
  revert s. induction evs as [|ev evs IH]; intros s Hinv; [exact Hinv|].
  cbn [run fold_left]. apply IH. now apply step_keeps_requestedOnlyWhileActive.
Qed.

(** The pad flag carries no information of its own: in every state
    reached from the mounted component, the pad is active exactly when
    the status is requested. *)
Theorem padActive_iff_requested (l : Layout) (evs : list Event) :
  padActive (hooks (run (mount l) evs)) = true
  <-> signatureStatus (hooks (run (mount l) evs)) = requested.
Proof.
  split.
  - apply (run_keeps_padActiveOnlyWhileRequested evs (mount l)).
    rewrite mount_hooks. intros H. discriminate H.
  - apply (run_keeps_requestedOnlyWhileActive evs (mount l)).
    rewrite mount_hooks. intros H. discriminate H.
Qed.

Lemma padActive_iff_requested_witness :
  padActive (hooks (run (mount desk) [RequestSignature; Clear; ToggleRole])) = true.
Proof.
  apply (proj2 (padActive_iff_requested desk [RequestSignature; Clear; ToggleRole])).
  reflexivity.
Defined.

(** Through the rendered controls the workflow is stricter than the
    handlers alone.  A step makes the status signed only by the client's
    Complete on a requested signature; Complete cannot be clicked in any
    other state, and once signed a new request cannot be clicked until a
    Clear has reset the status. *)
Theorem ui_signed_only_from_requested (s : Engine) (ev : Event) :
  (signatureStatus (hooks (uiStep s ev)) = signed ->
   signatureStatus (hooks s) = signed
   \/ (ev = CompleteSignature
       /\ currentUser (hooks s) = client
       /\ signatureStatus (hooks s) = requested))
  /\ (~ (currentUser (hooks s) = client /\ signatureStatus (hooks s) = requested) ->
      uiStep s CompleteSignature = s)
  /\ (signatureStatus (hooks s) = signed -> uiStep s RequestSignature = s).
Proof.
  split; [|split].
  - unfold uiStep. destruct (offered (hooks s) ev) eqn:Hoff; [|auto].
    pose proof (handle_sameWorkflow (hooks s) ev) as Hf.
    destruct ev;
      try (destruct (Hf s) as (_ & Hst & _); unfold step; rewrite Hst; auto; fail);
      clear Hf; unfold step; cbn [handle].
    + destruct (currentUser (hooks s)) eqn:Hu.
      * rewrite (proj1 (requestSignature_admin _ s Hu)). cbn. discriminate.
      * rewrite requestSignature_client by assumption. auto.
    + intros _. right. cbn in Hoff. unfold completeButtonRendered in Hoff.
      destruct (currentUser (hooks s)), (signatureStatus (hooks s));
        try discriminate Hoff; auto.
    + destruct (clearCanvas_hooks (hooks s) s) as [-> | [Hst ->]]; [auto|].
      cbn. discriminate.
    + cbn. auto.
  - intros Hno. unfold uiStep. cbn [offered]. unfold completeButtonRendered.
    destruct (currentUser (hooks s)), (signatureStatus (hooks s)); cbn;
      try reflexivity. exfalso. apply Hno. auto.
  - intros Hs. unfold uiStep. cbn [offered]. unfold requestButtonDisabled.
    rewrite Hs. cbn. now rewrite andb_false_r.
Qed.

Lemma ui_signed_only_from_requested_witness :
  uiStep (run (mount desk) [ToggleRole]) CompleteSignature = run (mount desk) [ToggleRole]
  /\ uiStep (run (mount desk) [RequestSignature; CompleteSignature]) RequestSignature
     = run (mount desk) [RequestSignature; CompleteSignature].
Proof.
  split.
  - apply (proj1 (proj2 (ui_signed_only_from_requested
                           (run (mount desk) [ToggleRole]) Clear))).
    vm_compute. intros [_ H]. discriminate H.
  - apply (proj2 (proj2 (ui_signed_only_from_requested
                           (run (mount desk) [RequestSignature; CompleteSignature]) Clear))).
    reflexivity.
Defined.

(** A whole signing and a Clear bring the workflow back to where it
    began: from any state of the mounted component in which the admin is
    active, request, complete and clear end with the admin active, the
    status not signed and the pad inactive. *)
Theorem signing_then_clear_resets (l : Layout) (evs : list Event) :
  currentUser (hooks (run (mount l) evs)) = admin ->
  hooks (run (run (mount l) evs) [RequestSignature; CompleteSignature; Clear])
  = mkHooks (isDrawing (hooks (run (mount l) evs))) admin not_signed false "png".
Proof.
  intros Hu. set (s := run (mount l) evs) in *.
  destruct (run_mounted evs (mount l) (mount_mounted l)) as ((canvas & Hc) & (ctx & Hx) & _).
  change (canvasRef s = Some canvas) in Hc. change (contextRef s = Some ctx) in Hx.
  assert (Hf : fileFormat (hooks s) = "png") by apply run_fileFormat.
  cbn [run fold_left].
  rewrite (request_effect s canvas ctx Hc Hx), Hu.
  rewrite completeSignature_effect. cbn [hooks currentUser setHooks].
  erewrite clear_effect by reflexivity. cbn. now rewrite Hf.
Qed.

Lemma signing_then_clear_resets_witness :
  hooks (run (run (mount desk) [RequestSignature; CompleteSignature])
             [RequestSignature; CompleteSignature; Clear])
  = mkHooks false admin not_signed false "png".
Proof.
  apply (signing_then_clear_resets desk [RequestSignature; CompleteSignature]).
  reflexivity.
Defined.

(** ** No handler raises *)

(** On the mounted component no handler raises: every event whose touch
    list, if it has one, names a contact runs its handler to the end. *)
Theorem mounted_handlers_return (s : Engine) (ev : Event) :
  mounted s ->
  carriesPosition ev = true ->
  handle (hooks s) ev s = Ok tt (step s ev) (outputOf (handle (hooks s) ev s)).
Proof.
  intros ((canvas & Hc) & (ctx & Hx) & Hl) Hev. unfold step.
  destruct s as [h c x dpr li lo]. cbn in Hc, Hx, Hl. subst c x li.
  destruct ev as [e|e|e|e|e|e|e| | | | | |l|l|k]; cbn [handle hooks];
    unfold startDrawing, draw, stopDrawing, requestSignature, completeSignature,
           clearCanvas, toggleUser, downloadSignature, handleResize, onload,
           getCoordinates, relayout.
  1-4: cbn in Hev; destruct (touches e) as [[|t ts]|]; try discriminate Hev;
    destruct (canDraw h), (isDrawing h); reflexivity.
  1-3: destruct (isDrawing h); reflexivity.
  - destruct (currentUser h), (SignatureStatus_eqb (signatureStatus h) signed);
      reflexivity.
  - destruct (currentUser h); reflexivity.
  - destruct (SignatureStatus_eqb (signatureStatus h) signed); reflexivity.
  - reflexivity.
  - reflexivity.
  - reflexivity.
  - reflexivity.
  - unfold_handler. destruct (nth_error lo k) as [d|]; [|reflexivity].
    destruct (decode d); reflexivity.
Qed.

Lemma mounted_handlers_return_witness :
  exists out,
    handle (hooks (run (mount desk) [RequestSignature]))
           (TouchStart (touchAt [mkTouch 31 42]))
           (run (mount desk) [RequestSignature])
    = Ok tt (step (run (mount desk) [RequestSignature])
                  (TouchStart (touchAt [mkTouch 31 42]))) out.
Proof.
  eexists.
  apply (mounted_handlers_return (run (mount desk) [RequestSignature])
           (TouchStart (touchAt [mkTouch 31 42]))).
  - apply run_mounted, mount_mounted.
  - reflexivity.
Defined.

(** ** The status indicator *)

(** The indicator tells the three statuses apart, by its text and by its
    colour. *)
Theorem status_indicator_distinguishes (h1 h2 : Hooks) :
  (getStatusText h1 = getStatusText h2 <-> signatureStatus h1 = signatureStatus h2)
  /\ (getStatusColor h1 = getStatusColor h2 <-> signatureStatus h1 = signatureStatus h2).
Proof.
  unfold getStatusText, getStatusColor.
  destruct (signatureStatus h1), (signatureStatus h2);
    split; split; intros H; try reflexivity; discriminate H.
Qed.

(* ------------------------------------------------------------------ *)
(** ** What takes ink away, and what puts it there *)

Lemma keepsInk_refl (s : Engine) : keepsInk s s.
Proof. intros p H. exact H. Qed.

Lemma keepsInk_trans (s1 s2 s3 : Engine) :
  keepsInk s1 s2 -> keepsInk s2 s3 -> keepsInk s1 s3.
Proof. unfold keepsInk. auto. Qed.

Lemma stroke_keeps_ink (ctx : Context) (c : CanvasElement) (p : Point) :
  inkAt c p = true -> inkAt (stroke ctx c) p = true.
Proof.
  unfold inkAt, stroke. cbn [setBitmap width height bitmap inkLayers inkLayer].
  intros H. apply andb_true_iff in H. destruct H as [-> ->].
  now rewrite orb_true_r.
Qed.

(** Only Clear, the request and a resize can take ink away.  Every other
    event (pen down, move and up, complete, toggle, export, a layout
    change, the completion of a pending redraw) leaves every inked pixel
    inked, in any state. *)
Theorem only_clear_request_resize_erase (s : Engine) (ev : Event) :
  mayErase ev = false ->
  forall p, inkOf s p = true -> inkOf (step s ev) p = true.
Proof.
  intros Hev. change (keepsInk s (step s ev)). unfold step.
  generalize (hooks s). intros h. revert s.
  change (frames keepsInk (handle h ev)).
  destruct ev; try discriminate Hev; cbn [handle];
    unfold startDrawing, draw, stopDrawing, completeSignature, toggleUser,
           downloadSignature, onload, getCoordinates, onContext,
           setIsDrawing, setCurrentUser, setSignatureStatus, setPadActive;
    frame_handler keepsInk_refl keepsInk_trans;
    intros p; unfold inkOf, relayout; unfold_handler;
    try (destruct (canvasRef s) as [c|]; cbn [option_map];
         [|discriminate]);
    auto using stroke_keeps_ink, drawImage_keeps_ink.
Qed.

Lemma only_clear_request_resize_erase_witness :
  inkOf (step (run (mount desk) (signedStroke 100 50 200 100)) CompleteSignature)
        (mkPoint 150 75) = true.
Proof.
  apply (only_clear_request_resize_erase
           (run (mount desk) (signedStroke 100 50 200 100)) CompleteSignature eq_refl).
  vm_compute. reflexivity.
Defined.

Lemma step_keeps_pad_inactive (s : Engine) (ev : Event) :
  isRequest ev = false ->
  padActive (hooks s) = false ->
  padActive (hooks (step s ev)) = false.
Proof.
  intros Hev Hp.
  pose proof (handle_sameWorkflow (hooks s) ev) as Hf.
  destruct ev; try discriminate Hev;
    try (destruct (Hf s) as (_ & _ & Hpa & _); unfold step; now rewrite Hpa);
    clear Hf.
  - rewrite completeSignature_effect. destruct (currentUser (hooks s)); [exact Hp|reflexivity].
  - unfold step. cbn [handle].
    destruct (clearCanvas_hooks (hooks s) s) as [-> | [_ ->]]; exact Hp.
  - unfold step. rewrite toggleUser_effect. exact Hp.
Qed.

Lemma inkless_removeNth (k : nat) (l : list DataURL) :
  Forall inklessData l -> Forall inklessData (removeNth k l).
Proof.
  revert k. induction l as [|d l IH]; intros k Hall; [destruct k; constructor|].
  inversion Hall; subst. destruct k; cbn; [assumption|]. constructor; auto.
Qed.

Lemma inkless_nth (k : nat) (l : list DataURL) (d : DataURL) :
  Forall inklessData l -> nth_error l k = Some d -> inklessData d.
Proof.
  intros Hall Hn. rewrite Forall_forall in Hall. apply Hall.
  eapply nth_error_In; eassumption.
Qed.

(** With the pad inactive, an event other than the request leaves an
    engine without ink without ink. *)
Lemma step_keeps_inkless (s : Engine) (ev : Event) :
  isRequest ev = false ->
  padActive (hooks s) = false ->
  inkless s ->
  inkless (step s ev).
Proof.
  intros Hev Hp Hi. pose proof Hi as (Hcv & Hlo).
  assert (Hcd : canDraw (hooks s) = false).
  { unfold canDraw. rewrite Hp. apply andb_false_r. }
  destruct ev as [e|e|e|e|e|e|e| | | | | |l|l|k]; try discriminate Hev; unfold step.
  1-4: rewrite denied_pointer_is_ignored by (auto); split; assumption.
  1-3: cbn [handle]; split;
    [ intros canvas Hc; rewrite stopDrawing_canvas in Hc; eauto
    | unfold stopDrawing; destruct (isDrawing (hooks s)); [|exact Hlo];
      unfold_handler; destruct (contextRef s); exact Hlo ].
  - (* CompleteSignature *)
    fold (step s CompleteSignature). rewrite completeSignature_effect.
    destruct (currentUser (hooks s)); split; assumption.
  - (* Clear *)
    cbn [handle].
    destruct (canvasRef s) as [canvas|] eqn:Hc;
      [destruct (contextRef s) as [ctx|] eqn:Hx|].
    + rewrite (clearCanvas_mounted _ s canvas ctx Hc Hx). cbn. split; [|exact Hlo].
      intros c' Hc' p. inversion Hc'; subst c'. unfold clearRect.
      destruct (Qeq_bool _ 0 || Qeq_bool _ 0 || negb (invertible (transform ctx)));
        [now apply Hcv|].
      cbn [setBitmap bitmap inkLayers inkLayer].
      destruct (inBox _ p); [reflexivity|now apply Hcv].
    + rewrite clearCanvas_unmounted by auto. exact Hi.
    + rewrite clearCanvas_unmounted by auto. exact Hi.
  - (* ToggleRole *)
    rewrite toggleUser_effect. split; assumption.
  - (* Export *)
    cbn [handle]. rewrite downloadSignature_effect. split; assumption.
  - (* Relayout *)
    cbn. split; [|exact Hlo]. unfold relayout. cbn.
    intros c' Hc' p. destruct (canvasRef s) as [canvas|]; [|discriminate Hc'].
    inversion Hc'; subst c'. cbn. now apply Hcv.
  - (* Resize *)
    destruct s as [h c x dpr li lo]. cbn in Hcv, Hlo |- *. unfold relayout.
    unfold handleResize. unfold_handler.
    destruct li; cbn.
    2:{ split; [|exact Hlo]. intros c' Hc' p. destruct c as [canvas|]; [|discriminate Hc'].
        inversion Hc'; subst c'. cbn. now apply (Hcv canvas). }
    destruct c as [canvas|]; cbn.
    2:{ split; [|exact Hlo]. intros c' Hc'. discriminate Hc'. }
    destruct x as [ctx|]; cbn.
    2:{ split; [|exact Hlo]. intros c' Hc' p. inversion Hc'; subst c'. cbn.
        now apply (Hcv canvas). }
    split.
    + intros c' Hc' p. inversion Hc'; subst c'. reflexivity.
    + apply Forall_app. split; [exact Hlo|]. constructor; [|constructor].
      unfold toDataURL. cbn [width height bitmap].
      destruct (Z.eqb (width canvas) 0 || Z.eqb (height canvas) 0); cbn; [exact I|].
      now apply (Hcv canvas).
  - (* ImageLoad *)
    destruct s as [h c x dpr li lo]. cbn in Hcv, Hlo |- *. unfold onload. unfold_handler.
    destruct (nth_error lo k) as [d|] eqn:Hn; cbn; [|split; assumption].
    pose proof (inkless_nth k lo d Hlo Hn) as Hd.
    pose proof (inkless_removeNth k lo Hlo) as Hrm.
    destruct d as [|mime w h' content]; cbn; [split; assumption|].
    destruct (String.eqb mime "image/png"); cbn; [|split; assumption].
    destruct x as [ctx|]; cbn; [|split; assumption].
    split; [|exact Hrm].
    intros c' Hc' p. destruct c as [canvas|]; [|discriminate Hc'].
    cbn in Hc'. inversion Hc'; subst c'.
    unfold drawImage. cbn [setBitmap bitmap naturalWidth naturalHeight pixels].
    rewrite inkLayers_picture. cbv zeta. cbn in Hd.
    rewrite Hd, (Hcv canvas eq_refl). now rewrite !andb_false_r.
Qed.

Lemma mount_inkless (l : Layout) : inkless (mount l).
Proof.
  split; [|constructor]. intros canvas Hc p. cbn in Hc. inversion Hc. reflexivity.
Qed.

(** No ink without a request.  Whatever else happens after the mount
    (pen events, role toggles, completes, clears, exports, layout
    changes, resizes and their redraws), as long as no signature has been
    requested the canvas has no ink, for either role. *)
Theorem no_request_no_ink (l : Layout) (evs : list Event) :
  forallb (fun ev => negb (isRequest ev)) evs = true ->
  forall p, inkOf (run (mount l) evs) p = false.
Proof.
  intros Hall.
  assert (Hinv : padActive (hooks (run (mount l) evs)) = false
                 /\ inkless (run (mount l) evs)).
  { assert (H0 : padActive (hooks (mount l)) = false /\ inkless (mount l))
      by (split; [reflexivity|apply mount_inkless]).
    revert H0. generalize (mount l). induction evs as [|ev evs IH]; intros s H0.
    - exact H0.
    - cbn in Hall. apply andb_true_iff in Hall. destruct Hall as [Hev Hrest].
      apply negb_true_iff in Hev. destruct H0 as [Hp Hi].
      cbn [run fold_left]. apply (IH Hrest). split.
      + now apply step_keeps_pad_inactive.
      + now apply step_keeps_inkless. }
  destruct Hinv as (_ & Hcv & _). intros p. unfold inkOf.
  destruct (canvasRef (run (mount l) evs)) as [canvas|] eqn:Hc; [|reflexivity].
  unfold inkAt. rewrite (Hcv canvas eq_refl). apply andb_false_r.
Qed.

Lemma no_request_no_ink_witness :
  inkOf (run (mount desk)
           [ToggleRole; MouseDown (mouseAt 110 70); MouseMove (mouseAt 210 120);
            CompleteSignature; Resize shrunk; ImageLoad 0])
        (mkPoint 100 50) = false.
Proof.
  apply (no_request_no_ink desk
           [ToggleRole; MouseDown (mouseAt 110 70); MouseMove (mouseAt 210 120);
            CompleteSignature; Resize shrunk; ImageLoad 0]).
  reflexivity.
Defined.

(* ------------------------------------------------------------------ *)
(** ** Strokes *)

Lemma sq_nonneg (a : Q) : 0 <= sq a.
Proof. unfold sq. nra. Qed.

Lemma Qeq_bool_proper (a a' b b' : Q) :
  a == a' -> b == b' -> Qeq_bool a b = Qeq_bool a' b'.
Proof.
  intros Ha Hb. destruct (Qeq_bool a' b') eqn:E.
  - apply Qeq_bool_iff in E. apply Qeq_bool_iff. now rewrite Ha, Hb.
  - destruct (Qeq_bool a b) eqn:E'; [|reflexivity].
    apply Qeq_bool_iff in E'. rewrite Ha, Hb in E'. apply Qeq_bool_iff in E'. congruence.
Qed.

Lemma invertible_nonzero (t : Transform) :
  invertible t = true -> ~ sx t == 0 /\ ~ sy t == 0.
Proof.
  unfold invertible. intros H. apply andb_true_iff in H. destruct H as [Hx Hy].
  apply negb_true_iff in Hx. apply negb_true_iff in Hy.
  split; intros E; apply Qeq_bool_iff in E; congruence.
Qed.

(** Going to device space and back neither merges nor separates
    points. *)
Lemma samePoint_there_and_back (t : Transform) (a b : Point) :
  invertible t = true ->
  samePoint (unapply t (apply t a)) (unapply t (apply t b)) = samePoint a b.
Proof.
  intros Hinv. destruct (invertible_nonzero t Hinv) as [Hx Hy].
  unfold samePoint, unapply, apply. cbn [x y]. f_equal.
  - apply Qeq_bool_proper; field; exact Hx.
  - apply Qeq_bool_proper; field; exact Hy.
Qed.

(** A round cap covers the end it sits on, for any width of the pen. *)
Lemma capCovers_tip (hw : Q) (tip dir : Point) : capCovers round hw tip dir tip = true.
Proof.
  unfold capCovers. apply andb_true_iff. split; apply Qle_bool_iff.
  - assert (H0 : dist2 tip tip == 0) by (unfold dist2, sq; ring).
    rewrite H0. apply sq_nonneg.
  - assert (H0 : dot (minus tip tip) dir == 0) by (unfold dot, minus; cbn [x y]; ring).
    rewrite H0. apply Qle_refl.
Qed.

Lemma getCoordinates_effect (e : PointerEvent) (s : Engine) (canvas : CanvasElement) :
  canvasRef s = Some canvas ->
  getCoordinates e s
  = match positionOf e (boundingClientRect canvas) with
    | Some p => Ok p s []
    | None => TypeError s []
    end.
Proof.
  intros Hc. unfold getCoordinates, positionOf. unfold_handler. rewrite Hc.
  destruct (touches e) as [[|t ts]|]; reflexivity.
Qed.

(** A pen-down that is let through: the flag is queued, the path begins
    anew at the mapped point, the canvas is not touched. *)
Lemma startDrawing_effect (h : Hooks) (e : PointerEvent) (s : Engine)
      (canvas : CanvasElement) (ctx : Context) (p : Point) :
  canvasRef s = Some canvas ->
  contextRef s = Some ctx ->
  canDraw h = true ->
  positionOf e (boundingClientRect canvas) = Some p ->
  startDrawing h e s
  = Ok tt
      (mkEngine (withIsDrawing true (hooks s)) (Some canvas)
                (Some (moveTo (x p) (y p) (beginPath ctx)))
                (devicePixelRatio s) (listening s) (loading s))
      [PreventDefault].
Proof.
  intros Hc Hx Hcd Hp. unfold startDrawing. rewrite Hcd. cbn [negb].
  destruct s as [hk c xr dpr li lo]. cbn in Hc, Hx. subst c xr.
  unfold getCoordinates. unfold positionOf in Hp. unfold_handler.
  destruct (touches e) as [[|t ts]|]; inversion Hp; reflexivity.
Qed.

(** A move that is let through: the line to the mapped point joins the
    path, and the whole path is stroked on the canvas. *)
Lemma draw_effect (h : Hooks) (e : PointerEvent) (s : Engine)
      (canvas : CanvasElement) (ctx : Context) (p : Point) :
  canvasRef s = Some canvas ->
  contextRef s = Some ctx ->
  isDrawing h = true ->
  canDraw h = true ->
  positionOf e (boundingClientRect canvas) = Some p ->
  draw h e s
  = Ok tt
      (mkEngine (hooks s)
                (Some (stroke (lineTo (x p) (y p) ctx) canvas))
                (Some (lineTo (x p) (y p) ctx))
                (devicePixelRatio s) (listening s) (loading s))
      [PreventDefault].
Proof.
  intros Hc Hx Hd Hcd Hp. unfold draw. rewrite Hd, Hcd. cbn [negb orb].
  destruct s as [hk c xr dpr li lo]. cbn in Hc, Hx. subst c xr.
  unfold getCoordinates. unfold positionOf in Hp. unfold_handler.
  destruct (touches e) as [[|t ts]|]; inversion Hp; reflexivity.
Qed.

Lemma canDraw_withIsDrawing (v : bool) (h : Hooks) :
  canDraw (withIsDrawing v h) = canDraw h.
Proof. reflexivity. Qed.

Lemma inkAt_stroke (ctx : Context) (c : CanvasElement) (p : Point) :
  inkAt (stroke ctx c) p
  = inBounds (width c) (height c) p
    && ((invertible (transform ctx)
          && pathCovers (lineCap ctx) (lineWidth ctx / 2)
              (map (fun sp => mkSubpath (map (unapply (transform ctx)) (points sp))
                                        (closed sp)) (path ctx))
              (unapply (transform ctx) p))
        || inkLayers (bitmap c) p).
Proof. reflexivity. Qed.

(** The canvas after the single segment [a]-[b] has been stroked on it
    with the pen of the component. *)
Lemma inkAt_one_segment (ctx : Context) (canvas : CanvasElement) (a b p : Point) :
  fixedPen ctx ->
  inkAt (stroke (lineTo (x b) (y b) (moveTo (x a) (y a) (beginPath ctx))) canvas) p
  = inBounds (width canvas) (height canvas) p
    && (subpathCovers round (2 / 2)
          (mkSubpath [unapply (transform ctx) (apply (transform ctx) a);
                      unapply (transform ctx) (apply (transform ctx) b)] false)
          (unapply (transform ctx) p)
        || inkLayers (bitmap canvas) p).
Proof.
  intros (Hcap & _ & Hlw & _ & Hinv). rewrite inkAt_stroke.
  destruct a as [ax ay], b as [bx b_y].
  cbn [lineTo moveTo beginPath setPath path transform lineWidth lineCap map points
       closed pathCovers existsb app x y stroke setBitmap width height bitmap].
  now rewrite Hinv, Hcap, Hlw, orb_false_r.
Qed.

(** Where the client is allowed to draw, a pen-down followed by a move
    paints one path of its own, the segment between the two mapped
    points, not joined to anything drawn before.  If the two positions
    differ, both end points of the segment, where they fall on the
    bitmap, are inked.  If they are the same, the segment has no length
    and nothing is painted at all. *)
Theorem stroke_inks_both_ends (s : Engine) (canvas : CanvasElement) (ctx : Context)
        (e1 e2 : PointerEvent) (a b : Point) :
  canvasRef s = Some canvas ->
  contextRef s = Some ctx ->
  canDraw (hooks s) = true ->
  fixedPen ctx ->
  positionOf e1 (boundingClientRect canvas) = Some a ->
  positionOf e2 (boundingClientRect canvas) = Some b ->
  let s' := run s [MouseDown e1; MouseMove e2] in
  let a' := apply (transform ctx) a in
  let b' := apply (transform ctx) b in
  canvasRef s'
  = Some (setBitmap
            (Stroked (transform ctx) [mkSubpath [a'; b'] false]
                     (lineWidth ctx) (lineCap ctx) (strokeStyle ctx) :: bitmap canvas)
            canvas)
  /\ (samePoint a b = false ->
      (inBounds (width canvas) (height canvas) a' = true -> inkOf s' a' = true)
      /\ (inBounds (width canvas) (height canvas) b' = true -> inkOf s' b' = true))
  /\ (samePoint a b = true -> forall p, inkOf s' p = inkOf s p).
Proof.
  intros Hc Hx Hcd Hpen Ha Hb s' a' b'.
  assert (Hs' : s' = mkEngine (withIsDrawing true (hooks s))
                       (Some (stroke (lineTo (x b) (y b) (moveTo (x a) (y a) (beginPath ctx)))
                                     canvas))
                       (Some (lineTo (x b) (y b) (moveTo (x a) (y a) (beginPath ctx))))
                       (devicePixelRatio s) (listening s) (loading s)).
  { unfold s'. cbn [run fold_left]. unfold step at 2. cbn [handle].
    rewrite (startDrawing_effect _ e1 s canvas ctx a Hc Hx Hcd Ha). cbn [engineOf].
    unfold step. cbn [handle hooks].
    erewrite (draw_effect _ e2 _ canvas _ b);
      [reflexivity|reflexivity|reflexivity|reflexivity|exact Hcd|exact Hb]. }
  pose proof Hpen as (_ & _ & _ & _ & Hinv).
  rewrite Hs'. unfold inkOf. cbn [canvasRef]. rewrite Hc.
  split; [destruct a, b; reflexivity|].
  split.
  - intros Hne.
    assert (Hne' : samePoint (unapply (transform ctx) a') (unapply (transform ctx) b') = false)
      by (unfold a', b'; now rewrite samePoint_there_and_back).
    split; intros Hin; rewrite (inkAt_one_segment ctx canvas a b _ Hpen), Hin;
      fold a' b'; unfold subpathCovers;
      cbn [closed points pruned prune]; rewrite Hne'; cbn [rev app];
      rewrite capCovers_tip; cbn [andb]; now rewrite ?orb_true_r.
  - intros Hsame p.
    assert (Hsame' : samePoint (unapply (transform ctx) a') (unapply (transform ctx) b') = true)
      by (unfold a', b'; now rewrite samePoint_there_and_back).
    rewrite (inkAt_one_segment ctx canvas a b p Hpen). fold a' b'.
    unfold subpathCovers. cbn [closed points pruned prune]. rewrite Hsame'.
    reflexivity.
Qed.

Lemma stroke_inks_both_ends_witness :
  inkOf (run (run (mount desk) [RequestSignature])
             [MouseDown (mouseAt 110 70); MouseMove (mouseAt 210 120)])
        (mkPoint 200 100) = true
  /\ inkOf (run (run (mount desk) [RequestSignature])
                [MouseDown (mouseAt 110 70); MouseMove (mouseAt 110 70)])
           (mkPoint 100 50) = false.
Proof.
  assert (Hc : canvasRef (run (mount desk) [RequestSignature])
               = Some (mkCanvas 300 150 300 150 (mkRect 10 20)
                                [Cleared (mkBox 0 0 300 150)]))
    by (vm_compute; reflexivity).
  assert (Hx : contextRef (run (mount desk) [RequestSignature])
               = Some (mkContext (mkTransform 1 1) [] round "#000" 2))
    by (vm_compute; reflexivity).
  assert (Hpen : fixedPen (mkContext (mkTransform 1 1) [] round "#000" 2))
    by (repeat split).
  split.
  - destruct (stroke_inks_both_ends _ _ _ (mouseAt 110 70) (mouseAt 210 120)
                (mkPoint 100 50) (mkPoint 200 100) Hc Hx eq_refl Hpen)
      as (_ & Hne & _); [vm_compute; reflexivity|vm_compute; reflexivity|].
    apply Hne; vm_compute; reflexivity.
  - destruct (stroke_inks_both_ends _ _ _ (mouseAt 110 70) (mouseAt 110 70)
                (mkPoint 100 50) (mkPoint 100 50) Hc Hx eq_refl Hpen)
      as (_ & _ & Hsame); [vm_compute; reflexivity|vm_compute; reflexivity|].
    rewrite (Hsame eq_refl). vm_compute. reflexivity.
Defined.

Lemma clearRect_size (rx ry rw rh : Q) (ctx : Context) (c : CanvasElement) :
  width (clearRect rx ry rw rh ctx c) = width c
  /\ height (clearRect rx ry rw rh ctx c) = height c.
Proof.
  unfold clearRect.
  destruct (Qeq_bool rw 0 || Qeq_bool rh 0 || negb (invertible (transform ctx)));
    split; reflexivity.
Qed.

(** Clear does not end a stroke.  It empties the bitmap but leaves the
    open path alone, and the handler of the next move strokes the whole
    path again: after a pen-down, a move to another position, a Clear and
    a further move, the drawing flag is still set and the point the
    stroke began at, capped round, is inked again. *)
Theorem clear_does_not_end_stroke (s : Engine) (canvas : CanvasElement) (ctx : Context)
        (e1 e2 e3 : PointerEvent) (a b c : Point) :
  canvasRef s = Some canvas ->
  contextRef s = Some ctx ->
  canDraw (hooks s) = true ->
  fixedPen ctx ->
  positionOf e1 (boundingClientRect canvas) = Some a ->
  positionOf e2 (boundingClientRect canvas) = Some b ->
  positionOf e3 (boundingClientRect canvas) = Some c ->
  samePoint a b = false ->
  let s' := run s [MouseDown e1; MouseMove e2; Clear; MouseMove e3] in
  let a' := apply (transform ctx) a in
  isDrawing (hooks s') = true
  /\ (inBounds (width canvas) (height canvas) a' = true -> inkOf s' a' = true).
Proof.
  intros Hc Hx Hcd Hpen Ha Hb Hc3 Hne s' a'.
  pose proof Hpen as (Hcap & _ & Hlw & _ & Hinv).
  set (ctx2 := lineTo (x b) (y b) (moveTo (x a) (y a) (beginPath ctx))).
  set (cleared := clearRect 0 0 (inject_Z (width (stroke ctx2 canvas)))
                            (inject_Z (height (stroke ctx2 canvas))) ctx2
                            (stroke ctx2 canvas)).
  assert (Hs' : exists h', isDrawing h' = true
                  /\ s' = mkEngine h' (Some (stroke (lineTo (x c) (y c) ctx2) cleared))
                            (Some (lineTo (x c) (y c) ctx2))
                            (devicePixelRatio s) (listening s) (loading s)).
  { unfold s'. cbn [run fold_left]. unfold step at 4. cbn [handle].
    rewrite (startDrawing_effect _ e1 s canvas ctx a Hc Hx Hcd Ha). cbn [engineOf].
    unfold step at 3. cbn [handle hooks].
    erewrite (draw_effect _ e2 _ canvas _ b);
      [|reflexivity|reflexivity|reflexivity|exact Hcd|exact Hb].
    cbn [engineOf]. fold ctx2.
    erewrite clear_effect by reflexivity. fold cleared.
    unfold step. cbn [handle hooks].
    erewrite (draw_effect _ e3 _ cleared _ c);
      [|reflexivity|reflexivity|reflexivity|exact Hcd| ].
    - eexists. split; [|reflexivity]. reflexivity.
    - unfold cleared, clearRect.
      destruct (Qeq_bool _ 0 || Qeq_bool _ 0 || negb (invertible (transform ctx2)));
        exact Hc3. }
  destruct Hs' as (h' & Hd & Hs'). rewrite Hs'. unfold inkOf. cbn [canvasRef hooks].
  split; [exact Hd|].
  destruct (clearRect_size 0 0 (inject_Z (width (stroke ctx2 canvas)))
              (inject_Z (height (stroke ctx2 canvas))) ctx2 (stroke ctx2 canvas))
    as (Hw & Hh). fold cleared in Hw, Hh. cbn [stroke setBitmap width height] in Hw, Hh.
  assert (Hne' : samePoint (unapply (transform ctx) a')
                           (unapply (transform ctx) (apply (transform ctx) b)) = false)
    by (unfold a'; now rewrite samePoint_there_and_back).
  intros Hin. rewrite inkAt_stroke, Hw, Hh, Hin. unfold ctx2.
  destruct a as [ax ay], b as [bx b_y], c as [cx cy]. cbn [x y] in *.
  cbn [lineTo moveTo beginPath setPath path transform lineWidth lineCap map points closed
       pathCovers existsb app andb orb].
  rewrite Hinv, Hcap. fold a'. unfold subpathCovers.
  cbn [closed points pruned prune]. rewrite Hne'.
  match goal with
  | |- context [if samePoint ?u ?v then _ else _] => destruct (samePoint u v)
  end; cbn [prune rev app];
    rewrite capCovers_tip; cbn [andb]; now rewrite ?orb_true_r.
Qed.

Lemma clear_does_not_end_stroke_witness :
  inkOf (run (run (mount desk) [RequestSignature])
             [MouseDown (mouseAt 110 70); MouseMove (mouseAt 210 120); Clear;
              MouseMove (mouseAt 130 130)])
        (mkPoint 100 50) = true.
Proof.
  assert (Hc : canvasRef (run (mount desk) [RequestSignature])
               = Some (mkCanvas 300 150 300 150 (mkRect 10 20)
                                [Cleared (mkBox 0 0 300 150)]))
    by (vm_compute; reflexivity).
  assert (Hx : contextRef (run (mount desk) [RequestSignature])
               = Some (mkContext (mkTransform 1 1) [] round "#000" 2))
    by (vm_compute; reflexivity).
  assert (Hpen : fixedPen (mkContext (mkTransform 1 1) [] round "#000" 2))
    by (repeat split).
  destruct (clear_does_not_end_stroke _ _ _ (mouseAt 110 70) (mouseAt 210 120)
              (mouseAt 130 130) (mkPoint 100 50) (mkPoint 200 100) (mkPoint 120 110)
              Hc Hx eq_refl Hpen)
    as (_ & Ha);
    [vm_compute; reflexivity|vm_compute; reflexivity|vm_compute; reflexivity
    |vm_compute; reflexivity|].
  apply Ha. vm_compute. reflexivity.
Defined.

(* ------------------------------------------------------------------ *)
(** ** Resizing, further *)

(** A resize in the middle of a stroke empties the path together with the
    bitmap, so the first move after it has no line to draw: with the
    redraw still pending the canvas is blank after that move, although
    the client is drawing. *)
Theorem first_move_after_resize_draws_nothing
        (s : Engine) (l : Layout) (e : PointerEvent) :
  mounted s ->
  isDrawing (hooks s) = true ->
  canDraw (hooks s) = true ->
  forall p, inkOf (run s [Resize l; MouseMove e]) p = false.
Proof.
  intros ((canvas & Hc) & (ctx & Hx) & Hl) Hd Hcd p.
  cbn [run fold_left]. unfold step at 2.
  rewrite (resize_effect s l canvas ctx Hc Hx Hl), setupCanvas_effect.
  cbn [engineOf fst snd]. unfold step. cbn [handle hooks].
  unfold draw. rewrite Hd, Hcd. cbn [negb orb].
  unfold getCoordinates.
  destruct (touches e) as [[|t ts]|]; unfold_handler; unfold inkOf;
    cbn [engineOf canvasRef option_map];
    rewrite ?inkAt_stroke; unfold inkAt, subpathCovers, lineTo;
    cbn [moveTo setPath path transform lineWidth lineCap map points closed pathCovers
         existsb pruned prune rev app bitmap inkLayers andb orb];
    now rewrite ?andb_false_r.
Qed.

Lemma first_move_after_resize_draws_nothing_witness :
  inkOf (run (run (mount desk) [RequestSignature; MouseDown (mouseAt 110 70);
                                MouseMove (mouseAt 210 120)])
             [Resize shrunk; MouseMove (mouseAt 30 30)])
        (mkPoint 20 10) = false.
Proof.
  apply (first_move_after_resize_draws_nothing
           (run (mount desk) [RequestSignature; MouseDown (mouseAt 110 70);
                              MouseMove (mouseAt 210 120)])
           shrunk (mouseAt 30 30)).
  - apply run_mounted, mount_mounted.
  - reflexivity.
  - reflexivity.
Defined.

Lemma nth_error_snoc {A} (l : list A) (d : A) :
  nth_error (l ++ [d])%list (List.length l) = Some d.
Proof. induction l as [|a l IH]; [reflexivity|exact IH]. Qed.

Lemma removeNth_snoc {A} (l : list A) (d : A) :
  removeNth (List.length l) (l ++ [d])%list = l.
Proof. induction l as [|a l IH]; [reflexivity|]. cbn. now rewrite IH. Qed.

(** A canvas without pixels (no width or no height) has nothing to keep.
    On a resize its capture is the empty data URL; when that image's
    loading ends, it ends in an error the code does not listen to: the
    entry is gone from the pending redraws and the canvas set up by the
    resize is as the resize left it, blank. *)
Theorem resize_of_empty_canvas (s : Engine) (l : Layout) (canvas : CanvasElement) :
  mounted s ->
  canvasRef s = Some canvas ->
  width canvas = 0%Z \/ height canvas = 0%Z ->
  let s1 := step s (Resize l) in
  let s2 := step s1 (ImageLoad (List.length (loading s))) in
  loading s1 = (loading s ++ [EmptyData])%list
  /\ loading s2 = loading s
  /\ canvasRef s2 = canvasRef s1
  /\ forall p, inkOf s2 p = false.
Proof.
  intros (_ & (ctx & Hx) & Hl) Hc Hz s1 s2.
  assert (Hcap : toDataURL "image/png" canvas = EmptyData).
  { unfold toDataURL. destruct Hz as [-> | ->]; [reflexivity|].
    now rewrite orb_true_r. }
  assert (Hs1 : s1 = mkEngine (hooks s)
                       (Some (fst (setupCanvas (layoutPixelRatio l) (laidOut l canvas, ctx))))
                       (Some (snd (setupCanvas (layoutPixelRatio l) (laidOut l canvas, ctx))))
                       (layoutPixelRatio l) true (loading s ++ [EmptyData])).
  { unfold s1, step. rewrite (resize_effect s l canvas ctx Hc Hx Hl), Hcap. reflexivity. }
  assert (Hs2 : s2 = setLoading (loading s) s1).
  { unfold s2, step. rewrite Hs1. cbn [handle hooks]. unfold_handler.
    rewrite nth_error_snoc, removeNth_snoc. reflexivity. }
  rewrite Hs2, Hs1. cbn. repeat split.
  intros p. unfold inkOf. cbn. apply andb_false_r.
Qed.

Lemma resize_of_empty_canvas_witness :
  loading (step (mount collapsed) (Resize desk)) = [EmptyData]
  /\ loading (run (mount collapsed) [Resize desk; ImageLoad 0]) = [].
Proof.
  destruct (resize_of_empty_canvas (mount collapsed) desk
              (mkCanvas 0 150 0 150 (mkRect 10 20) [])
              (mount_mounted collapsed) eq_refl (or_introl eq_refl))
    as (H1 & H2 & _).
  split; [exact H1|exact H2].
Defined.

(* ------------------------------------------------------------------ *)
(** ** The pen and the scale *)

Lemma ratioOf_nonzero (dpr : Q) : Qeq_bool (1 * ratioOf dpr) 0 = false.
Proof.
  unfold ratioOf. destruct (Qeq_bool dpr 0) eqn:E; [reflexivity|].
  destruct (Qeq_bool (1 * dpr) 0) eqn:E1; [|reflexivity].
  apply Qeq_bool_iff in E1. rewrite Qmult_1_l in E1.
  apply Qeq_bool_iff in E1. congruence.
Qed.

Lemma setupCanvas_fixedPen (dpr : Q) (cc : CanvasElement * Context) :
  fixedPen (snd (setupCanvas dpr cc)) /\ bitmap (fst (setupCanvas dpr cc)) = [].
Proof.
  destruct cc as [canvas ctx]. rewrite setupCanvas_effect.
  unfold fixedPen, invertible.
  cbn [fst snd bitmap transform lineCap strokeStyle lineWidth sx sy].
  rewrite ratioOf_nonzero. repeat split.
Qed.

Lemma keepsPen_refl (s : Engine) : keepsPen s s.
Proof. intros H. exact H. Qed.

Lemma keepsPen_trans (s1 s2 s3 : Engine) :
  keepsPen s1 s2 -> keepsPen s2 s3 -> keepsPen s1 s3.
Proof. unfold keepsPen. auto. Qed.

Lemma path_op_fixedPen (f : Context -> Context) (ctx : Context) :
  (forall c, transform (f c) = transform c /\ lineCap (f c) = lineCap c
             /\ strokeStyle (f c) = strokeStyle c /\ lineWidth (f c) = lineWidth c) ->
  fixedPen ctx -> fixedPen (f ctx).
Proof.
  intros Hf. destruct (Hf ctx) as (Ht & Hc & Hs & Hw).
  unfold fixedPen. rewrite Ht, Hc, Hs, Hw. auto.
Qed.

Lemma path_ops_keep_pen (px py : Q) (c : Context) :
  (transform (beginPath c) = transform c /\ lineCap (beginPath c) = lineCap c
   /\ strokeStyle (beginPath c) = strokeStyle c /\ lineWidth (beginPath c) = lineWidth c)
  /\ (transform (moveTo px py c) = transform c /\ lineCap (moveTo px py c) = lineCap c
      /\ strokeStyle (moveTo px py c) = strokeStyle c
      /\ lineWidth (moveTo px py c) = lineWidth c)
  /\ (transform (lineTo px py c) = transform c /\ lineCap (lineTo px py c) = lineCap c
      /\ strokeStyle (lineTo px py c) = strokeStyle c
      /\ lineWidth (lineTo px py c) = lineWidth c)
  /\ (transform (closePath c) = transform c /\ lineCap (closePath c) = lineCap c
      /\ strokeStyle (closePath c) = strokeStyle c
      /\ lineWidth (closePath c) = lineWidth c).
Proof.
  unfold beginPath, moveTo, lineTo, closePath, setPath.
  destruct (path c) as [|sp rest]; [|destruct (points sp)]; cbn; auto 20.
Qed.

Lemma clearRect_bitmap (rx ry rw rh : Q) (ctx : Context) (c : CanvasElement) :
  bitmap (clearRect rx ry rw rh ctx c) = bitmap c
  \/ exists b, bitmap (clearRect rx ry rw rh ctx c) = Cleared b :: bitmap c.
Proof.
  unfold clearRect.
  destruct (Qeq_bool rw 0 || Qeq_bool rh 0 || negb (invertible (transform ctx)));
    [left; reflexivity|right; eexists; reflexivity].
Qed.

(** A drawn image is painted with the pen if its content is. *)
Lemma paintedWithFixedPen_picture (iw ih : Z) (pix : Bitmap) (t : Transform) (dx dy : Q) :
  paintedWithFixedPen (Picture iw ih pix t dx dy) = allPaintedWithFixedPen pix.
Proof. reflexivity. Qed.

Lemma Forall_removeNth {A} (P : A -> Prop) (k : nat) (l : list A) :
  Forall P l -> Forall P (removeNth k l).
Proof.
  revert k. induction l as [|d l IH]; intros k Hall; [destruct k; constructor|].
  inversion Hall; subst. destruct k; cbn; [assumption|]. constructor; auto.
Qed.

Lemma Forall_nth_error {A} (P : A -> Prop) (k : nat) (l : list A) (d : A) :
  Forall P l -> nth_error l k = Some d -> P d.
Proof.
  intros Hall Hn. rewrite Forall_forall in Hall. apply Hall.
  eapply nth_error_In; eassumption.
Qed.

Lemma handle_keepsPen (h : Hooks) (ev : Event) :
  drawsNoImage ev = true -> frames keepsPen (handle h ev).
Proof.
  intros Hev. destruct ev; try discriminate Hev; cbn [handle];
    unfold startDrawing, draw, stopDrawing, requestSignature, completeSignature,
           clearCanvas, toggleUser, downloadSignature,
           getCoordinates, setIsDrawing, setCurrentUser, setSignatureStatus,
           setPadActive;
    frame_handler keepsPen_refl keepsPen_trans;
    intros (Hpen & Hbm & Hlo); (split; [|split]); unfold relayout; unfold_handler;
    try assumption.
  all: try (intros ctx' Hctx'; inversion Hctx'; subst ctx';
            match goal with
            | H : contextRef ?s = Some ?c |- fixedPen (?f ?c) =>
                apply path_op_fixedPen; [|now apply Hpen];
                intros c0; apply (path_ops_keep_pen 0 0 c0)
            | H : contextRef ?s = Some ?c |- fixedPen (?f ?a ?b ?c) =>
                apply path_op_fixedPen; [|now apply Hpen];
                intros c0; apply (path_ops_keep_pen a b c0)
            end).
  all: try (intros canvas' Hcv';
            match goal with
            | H : option_map _ (canvasRef ?s) = Some _ |- _ =>
                destruct (canvasRef s) as [cv|] eqn:Ecv; [|discriminate H];
                cbn in H; inversion H; subst canvas'; clear H
            | H : Some _ = Some _ |- _ => inversion H; subst canvas'; clear H
            end).
  all: try (cbn; now apply (Hbm _ eq_refl)).
  all: try (cbn [stroke setBitmap bitmap allPaintedWithFixedPen paintedWithFixedPen];
            split; [|now apply (Hbm _ eq_refl)];
            match goal with
            | H : contextRef _ = Some ?c |- _ =>
                destruct (Hpen c H) as (? & ? & ? & ? & ?); auto
            end).
  all: try (match goal with
            | |- allPaintedWithFixedPen (bitmap (clearRect ?a ?b ?c ?d ?e ?f)) =>
                destruct (clearRect_bitmap a b c d e f) as [-> | (bx & ->)];
                [|split; [exact I|]]; now apply (Hbm _ eq_refl)
            end).
Qed.

Lemma step_keeps_pen (s : Engine) (ev : Event) :
  mounted s -> penInvariant s -> penInvariant (step s ev).
Proof.
  intros ((canvas & Hc) & (ctx & Hx) & Hl) Hinv.
  destruct (drawsNoImage ev) eqn:Hev;
    [now apply (handle_keepsPen (hooks s) ev Hev s)|].
  destruct Hinv as (Hpen & Hbm & Hlo).
  destruct ev as [e|e|e|e|e|e|e| | | | | |l|l|k]; try discriminate Hev; unfold step.
  - (* Resize: the capture holds what the canvas held *)
    rewrite (resize_effect s l canvas ctx Hc Hx Hl). cbn [engineOf].
    split; [|split]; cbn [contextRef canvasRef loading].
    + intros ctx' Hctx'.
      assert (E : ctx' = snd (setupCanvas (layoutPixelRatio l) (laidOut l canvas, ctx)))
        by congruence.
      rewrite E.
      apply (proj1 (setupCanvas_fixedPen (layoutPixelRatio l) (laidOut l canvas, ctx))).
    + intros canvas' Hcv'.
      assert (E : canvas' = fst (setupCanvas (layoutPixelRatio l) (laidOut l canvas, ctx)))
        by congruence.
      rewrite E, (proj2 (setupCanvas_fixedPen _ _)). exact I.
    + apply Forall_app. split; [exact Hlo|]. constructor; [|constructor].
      unfold toDataURL. destruct (Z.eqb (width canvas) 0 || Z.eqb (height canvas) 0);
        [exact I|]. cbn. now apply Hbm.
  - (* ImageLoad: the image drawn is one of the captures *)
    destruct (nth_error (loading s) k) as [d|] eqn:Hn.
    + destruct (decode d) as [img|] eqn:Hd.
      * rewrite (imageLoad_effect s k d img canvas ctx Hn Hd Hc Hx). cbn [engineOf].
        split; [|split]; cbn [contextRef canvasRef loading].
        -- intros ctx' Hctx'. inversion Hctx'; subst ctx'. now apply Hpen.
        -- intros canvas' Hcv'. inversion Hcv'; subst canvas'.
           cbn [drawImage setBitmap bitmap allPaintedWithFixedPen].
           split; [|now apply Hbm].
           rewrite paintedWithFixedPen_picture.
           pose proof (Forall_nth_error _ k _ d Hlo Hn) as Hcap.
           destruct d as [|mime w h' content]; [discriminate Hd|].
           cbn in Hd. destruct (String.eqb mime "image/png"); [|discriminate Hd].
           inversion Hd; subst img. exact Hcap.
        -- now apply Forall_removeNth.
      * assert (Hstep : engineOf (handle (hooks s) (ImageLoad k) s)
                        = setLoading (removeNth k (loading s)) s).
        { destruct s as [hk c x dpr li lo]. cbn in Hn |- *. unfold_handler.
          rewrite Hn, Hd. reflexivity. }
        rewrite Hstep. split; [|split]; cbn [setLoading contextRef canvasRef loading];
          try assumption. now apply Forall_removeNth.
    + assert (Hstep : engineOf (handle (hooks s) (ImageLoad k) s) = s).
      { destruct s as [hk c x dpr li lo]. cbn in Hn |- *. unfold_handler.
        rewrite Hn. reflexivity. }
      rewrite Hstep. split; [|split]; assumption.
Qed.

(** The pen never varies.  In every state reached from the mounted
    component the context draws round-capped, in [#000], two units wide,
    under a uniform scale that can be undone (a pixel ratio of 0 counts
    as 1); and every stroke there is was painted with that pen: the
    strokes on the canvas, the strokes inside the captures redrawn on it
    after a resize, and the strokes inside the captures still waiting to
    be redrawn. *)
Theorem pen_never_varies (l : Layout) (evs : list Event) :
  exists canvas ctx,
    canvasRef (run (mount l) evs) = Some canvas
    /\ contextRef (run (mount l) evs) = Some ctx
    /\ fixedPen ctx
    /\ allPaintedWithFixedPen (bitmap canvas)
    /\ Forall capturedWithFixedPen (loading (run (mount l) evs)).
Proof.
  assert (Hinv : mounted (run (mount l) evs) /\ penInvariant (run (mount l) evs)).
  { assert (H0 : mounted (mount l) /\ penInvariant (mount l)).
    { split; [apply mount_mounted|]. split; [|split].
      - intros ctx Hx. cbn in Hx. inversion Hx; subst ctx.
        apply (setupCanvas_fixedPen (layoutPixelRatio l)
                 (mkCanvas 300 150 (layoutWidth l) (layoutHeight l) (layoutRect l) [],
                  defaultContext)).
      - intros canvas Hc. cbn in Hc. inversion Hc. exact I.
      - constructor. }
    revert H0. generalize (mount l). induction evs as [|ev evs IH]; intros s H0;
      [exact H0|].
    cbn [run fold_left]. apply IH. destruct H0 as (Hm & Hp). split.
    - now apply (handle_staysMounted (hooks s) ev s).
    - now apply step_keeps_pen. }
  destruct Hinv as (((canvas & Hc) & (ctx & Hx) & _) & Hpen & Hbm & Hlo).
  exists canvas, ctx. repeat split; auto; now apply Hpen.
Qed.

(* ------------------------------------------------------------------ *)
(** ** Backing size and displayed size *)

Lemma clearRect_setBitmap (rx ry rw rh : Q) (ctx : Context) (c : CanvasElement) :
  exists b, clearRect rx ry rw rh ctx c = setBitmap b c.
Proof.
  unfold clearRect.
  destruct (Qeq_bool rw 0 || Qeq_bool rh 0 || negb (invertible (transform ctx)));
    [exists (bitmap c); destruct c; reflexivity|eexists; reflexivity].
Qed.

Lemma keepsSized_refl (s : Engine) : keepsSized s s.
Proof. intros H. exact H. Qed.

Lemma keepsSized_trans (s1 s2 s3 : Engine) :
  keepsSized s1 s2 -> keepsSized s2 s3 -> keepsSized s1 s3.
Proof. unfold keepsSized. auto. Qed.

Lemma handle_keepsSized (h : Hooks) (ev : Event) :
  isRelayout ev = false -> frames keepsSized (handle h ev).
Proof.
  intros Hev. destruct ev; try discriminate Hev; cbn [handle].
  13:{ (* Resize *)
    intros s (canvas & ctx & Hc & Hx & Hl & _).
    change (sized (engineOf (handle (hooks s) (Resize l) s))).
    rewrite (resize_effect s l canvas ctx Hc Hx Hl), setupCanvas_effect.
    cbn [engineOf fst snd]. eexists. eexists. repeat split. }
  all: unfold startDrawing, draw, stopDrawing, requestSignature, completeSignature,
           clearCanvas, toggleUser, downloadSignature, onload, getCoordinates,
           setIsDrawing, setCurrentUser, setSignatureStatus, setPadActive;
    frame_handler keepsSized_refl keepsSized_trans;
    intros (cv0 & cx0 & Hc & Hx & Hl & Hw & Hh & Ht); unfold sized;
    unfold_handler; rewrite ?Hc, ?Hx; cbn [option_map].
  all: try (exists cv0, cx0; auto 10; fail).
  all: try (match goal with
            | H1 : contextRef ?s = Some ?a, H2 : contextRef ?s = Some ?b |- _ =>
                rewrite H1 in H2; inversion H2; subst
            end).
  all: try (eexists; eexists; split; [reflexivity|]; split; [reflexivity|];
            split; [assumption|];
            first [ split; [exact Hw|]; split; [exact Hh|];
                    match goal with
                    | |- transform (?f ?c) = _ =>
                        rewrite (proj1 (proj1 (path_ops_keep_pen 0 0 c))); exact Ht
                    | |- transform (closePath ?c) = _ =>
                        rewrite (proj1 (proj2 (proj2 (proj2 (path_ops_keep_pen 0 0 c)))));
                        exact Ht
                    | |- transform (moveTo ?a ?b ?c) = _ =>
                        rewrite (proj1 (proj1 (proj2 (path_ops_keep_pen a b c)))); exact Ht
                    | |- transform (lineTo ?a ?b ?c) = _ =>
                        rewrite (proj1 (proj1 (proj2 (proj2 (path_ops_keep_pen a b c)))));
                        exact Ht
                    end
                  | match goal with
                    | |- context [clearRect ?a ?b ?c ?d ?e ?f] =>
                        destruct (clearRect_setBitmap a b c d e f) as (bm & ->);
                        cbn [setBitmap width height offsetWidth offsetHeight]; auto
                    end
                  | cbn [stroke drawImage setBitmap width height offsetWidth offsetHeight];
                    auto ]).
Qed.

(** The backing store follows the layout through the resize listener, and
    only through it.  As long as every change of layout reaches the
    component as a resize of the window, in every state the backing width
    and height are the displayed width and height times the pixel ratio
    (0 counting as 1), truncated, and the context scales by that ratio. *)
Theorem backing_follows_layout (l : Layout) (evs : list Event) :
  forallb (fun ev => negb (isRelayout ev)) evs = true ->
  exists canvas ctx,
    canvasRef (run (mount l) evs) = Some canvas
    /\ contextRef (run (mount l) evs) = Some ctx
    /\ width canvas
       = toUnsignedLong (inject_Z (offsetWidth canvas)
                         * ratioOf (devicePixelRatio (run (mount l) evs)))
    /\ height canvas
       = toUnsignedLong (inject_Z (offsetHeight canvas)
                         * ratioOf (devicePixelRatio (run (mount l) evs)))
    /\ transform ctx
       = mkTransform (1 * ratioOf (devicePixelRatio (run (mount l) evs)))
                     (1 * ratioOf (devicePixelRatio (run (mount l) evs))).
Proof.
  intros Hall.
  assert (Hs : sized (run (mount l) evs)).
  { assert (H0 : sized (mount l)).
    { unfold sized. cbn. eexists. eexists. repeat split. }
    revert H0. generalize (mount l). induction evs as [|ev evs IH]; intros s H0;
      [exact H0|].
    cbn in Hall. apply andb_true_iff in Hall. destruct Hall as [Hev Hrest].
    apply negb_true_iff in Hev.
    cbn [run fold_left]. apply (IH Hrest).
    now apply (handle_keepsSized (hooks s) ev Hev s). }
  destruct Hs as (canvas & ctx & Hc & Hx & _ & Hw & Hh & Ht).
  exists canvas, ctx. auto.
Qed.

Lemma backing_follows_layout_witness :
  exists canvas ctx,
    canvasRef (run (mount desk) [RequestSignature; Resize zoomedOut]) = Some canvas
    /\ contextRef (run (mount desk) [RequestSignature; Resize zoomedOut]) = Some ctx
    /\ width canvas = 150%Z.
Proof.
  destruct (backing_follows_layout desk [RequestSignature; Resize zoomedOut] eq_refl)
    as (canvas & ctx & Hc & Hx & Hw & _).
  exists canvas, ctx. split; [exact Hc|]. split; [exact Hx|].
  rewrite Hw. vm_compute in Hc. inversion Hc. reflexivity.
Defined.

(** A change of layout that comes without a resize of the window is not
    seen: the canvas is displayed at half its size while its backing
    store and its scale stay as they were. *)
Example relayout_is_not_followed :
  canvasRef (run (mount desk) [Relayout shrunk])
  = Some (mkCanvas 300 150 150 75 (mkRect 10 20) [])
  /\ contextRef (run (mount desk) [Relayout shrunk])
     = Some (mkContext (mkTransform 1 1) [] round "#000" 2).
Proof. split; vm_compute; reflexivity. Qed.

(* ------------------------------------------------------------------ *)
(** ** The pad between two requests *)

(** While no new signature is requested the pad stays closed.  From any
    state with an inactive pad (the first render, or the state a Complete
    leaves), whatever events follow short of a request, the pad is still
    inactive, drawing is not allowed to anyone, and a pen-down or a move
    is ignored entirely. *)
Theorem pad_stays_inactive_until_request (s : Engine) (evs : list Event) (ev : Event) :
  padActive (hooks s) = false ->
  forallb (fun ev => negb (isRequest ev)) evs = true ->
  isPenDown ev || isPenMove ev = true ->
  padActive (hooks (run s evs)) = false
  /\ canDraw (hooks (run s evs)) = false
  /\ step (run s evs) ev = run s evs.
Proof.
  intros Hp Hall Hev.
  assert (Hpad : padActive (hooks (run s evs)) = false).
  { revert s Hp. induction evs as [|e evs IH]; intros s Hp; [exact Hp|].
    cbn in Hall. apply andb_true_iff in Hall. destruct Hall as [He Hrest].
    apply negb_true_iff in He. cbn [run fold_left]. apply (IH Hrest).
    now apply step_keeps_pad_inactive. }
  assert (Hcd : canDraw (hooks (run s evs)) = false).
  { unfold canDraw. rewrite Hpad. apply andb_false_r. }
  split; [exact Hpad|]. split; [exact Hcd|].
  unfold step. now rewrite denied_pointer_is_ignored.
Qed.

Lemma pad_stays_inactive_until_request_witness :
  step (run (run (mount desk) (signedStroke 100 50 200 100 ++ [CompleteSignature]))
            [ToggleRole; Clear; Resize shrunk])
       (MouseDown (mouseAt 30 30))
  = run (run (mount desk) (signedStroke 100 50 200 100 ++ [CompleteSignature]))
        [ToggleRole; Clear; Resize shrunk].
Proof.
  apply (pad_stays_inactive_until_request
           (run (mount desk) (signedStroke 100 50 200 100 ++ [CompleteSignature]))
           [ToggleRole; Clear; Resize shrunk] (MouseDown (mouseAt 30 30)));
    reflexivity.
Defined.
